(** * Route safety scoring and route selection of safe-route

  A shallow embedding of the scoring pipeline of
  [safe-route/src/components/RouteSearch.tsx]:
  [calculateCrimeDensity], [calculateRouteSafetyScore], [getSafetyGrade],
  [identifyHighRiskAreas] and the selection step of [calculateRoute].

  Numbers.  A JavaScript number is modelled by an exact rational; the
  values that [parseFloat] adds to the finite ones ([NaN], the two
  infinities) are explicit constructors of [num].  Rounding of binary64
  arithmetic, overflow and signed zeros are not modelled.  A density is a
  sum of integer literals and is kept in [Z].

  Strings are byte strings: [toLowerCase] acts on the ASCII letters and
  the white space skipped by [parseFloat] is the ASCII white space. *)

From Stdlib Require Import ZArith QArith Qround Qminmax Lia Lqa.
From Stdlib Require Import List String Ascii Bool DecimalString.
From stdpp Require Import base list.
Import ListNotations.

Open Scope string_scope.
Open Scope list_scope.
Open Scope Q_scope.

(** ** JavaScript values used by the pipeline *)

Module JS.

(** The number values that reach the density test. *)
Inductive num : Type :=
| NaN
| Inf (negative : bool)
| Fin (q : Q).

(** [a < b] and [a === b] on finite numbers. *)
Definition ltb (a b : Q) : bool := negb (Qle_bool b a).
Definition eqb (a b : Q) : bool := Qeq_bool a b.

Definition is_neg (q : Q) : bool := ltb q 0.
Definition is_zero (q : Q) : bool := eqb q 0.

Definition neg (a : num) : num :=
  match a with
  | NaN => NaN
  | Inf s => Inf (negb s)
  | Fin q => Fin (- q)
  end.

Definition add (a b : num) : num :=
  match a, b with
  | NaN, _ | _, NaN => NaN
  | Inf s, Inf t => if Bool.eqb s t then Inf s else NaN
  | Inf s, Fin _ => Inf s
  | Fin _, Inf t => Inf t
  | Fin p, Fin q => Fin (p + q)
  end.

Definition sub (a b : num) : num := add a (neg b).

Definition mul (a b : num) : num :=
  match a, b with
  | NaN, _ | _, NaN => NaN
  | Inf s, Inf t => Inf (xorb s t)
  | Inf s, Fin q => if is_zero q then NaN else Inf (xorb s (is_neg q))
  | Fin p, Inf t => if is_zero p then NaN else Inf (xorb (is_neg p) t)
  | Fin p, Fin q => Fin (p * q)
  end.

(** [Math.sqrt] has no rational value in general: its result is kept as
    the number under the root and compared by squaring. *)
Record root : Type := Sqrt { radicand : num }.

Definition Math_sqrt (x : num) : root := Sqrt x.

(** [Math.sqrt(x) > r]. *)
Definition root_gt (d : root) (r : Q) : bool :=
  match radicand d with
  | NaN => false
  | Inf s => negb s
  | Fin x =>
      if is_neg x then false
      else if is_neg r then true
      else ltb (r * r) x
  end.

(** [Math.sqrt(x) < r]. *)
Definition root_lt (d : root) (r : Q) : bool :=
  match radicand d with
  | NaN => false
  | Inf _ => false
  | Fin x =>
      if is_neg x then false
      else ltb 0 r && ltb x (r * r)
  end.

(** [Math.round]: the integer nearest to [x], halves going up. *)
Definition Math_round (x : Q) : Z := Qfloor (x + (1 # 2)).

(** *** Strings *)

Definition is_upper (c : ascii) : bool :=
  let n := nat_of_ascii c in (65 <=? n)%nat && (n <=? 90)%nat.

Definition lower_char (c : ascii) : ascii :=
  if is_upper c then ascii_of_nat (nat_of_ascii c + 32) else c.

Fixpoint toLowerCase (s : string) : string :=
  match s with
  | EmptyString => EmptyString
  | String c r => String (lower_char c) (toLowerCase r)
  end.

Fixpoint startsWith (p s : string) : bool :=
  match p, s with
  | EmptyString, _ => true
  | String _ _, EmptyString => false
  | String a p', String b s' => Ascii.eqb a b && startsWith p' s'
  end.

(** [s.includes(p)] *)
Fixpoint includes (s p : string) : bool :=
  startsWith p s
  || match s with
     | EmptyString => false
     | String _ s' => includes s' p
     end.

(** [x || ''] on a string field that may be missing. *)
Definition or_empty (x : option string) : string :=
  match x with
  | Some s => s
  | None => EmptyString
  end.

(** *** parseFloat *)

Definition is_space (c : ascii) : bool :=
  let n := nat_of_ascii c in
  ((9 <=? n)%nat && (n <=? 13)%nat) || (n =? 32)%nat.

Definition digit_of (c : ascii) : option Z :=
  let n := nat_of_ascii c in
  if (48 <=? n)%nat && (n <=? 57)%nat then Some (Z.of_nat (n - 48)) else None.

Fixpoint trimStart (s : string) : string :=
  match s with
  | String c r => if is_space c then trimStart r else s
  | EmptyString => s
  end.

(** The longest run of decimal digits at the head of [s]: its value on top
    of [acc], the number of digits read, and the rest of the string. *)
Fixpoint digits (acc : Z) (count : nat) (s : string) : Z * nat * string :=
  match s with
  | String c r =>
      match digit_of c with
      | Some d => digits (10 * acc + d)%Z (S count) r
      | None => (acc, count, s)
      end
  | EmptyString => (acc, count, s)
  end.

(** A sign character at the head of [s], if any: [true] for a minus. *)
Definition sign (s : string) : bool * string :=
  match s with
  | String "-"%char r => (true, r)
  | String "+"%char r => (false, r)
  | _ => (false, s)
  end.

(** The exponent part [e[+-]ddd] at the head of [s]; 0 when it is absent
    or has no digit. *)
Definition exponent (s : string) : Z :=
  match s with
  | String c r =>
      if (Ascii.eqb c "e" || Ascii.eqb c "E")%bool then
        let '(minus, r') := sign r in
        let '(e, n, _) := digits 0 0 r' in
        match n with
        | O => 0%Z
        | S _ => if minus then (- e)%Z else e
        end
      else 0%Z
  | EmptyString => 0%Z
  end.

(** [m * 10^e] *)
Definition scale (m e : Z) : Q :=
  match e with
  | Zneg p => Qmake m (10 ^ p)
  | _ => Qmake (m * 10 ^ e) 1
  end.

(** [parseFloat(s)]: the value of the longest prefix of the trimmed string
    that is a decimal literal, [NaN] when there is none. *)
Definition parseFloat (s : string) : num :=
  let '(minus, body) := sign (trimStart s) in
  if startsWith "Infinity" body then Inf minus
  else
    let '(int, n_int, after_int) := digits 0 0 body in
    let '(mant, n_frac, rest) :=
      match after_int with
      | String "."%char r =>
          let '(m, k, r') := digits int 0 r in
          match n_int, k with
          | O, O => (int, O, after_int)
          | _, _ => (m, k, r')
          end
      | _ => (int, O, after_int)
      end in
    match n_int, n_frac with
    | O, O => NaN
    | _, _ =>
        let v := scale mant (exponent rest - Z.of_nat n_frac) in
        Fin (if minus then - v else v)
    end.

End JS.

(** ** Arrays *)

Module JSArray.

Section Indexed.
Context {A : Type}.

(** [l.filter((x, index) => p x index)], from index [i] on. *)
Fixpoint filter_from (p : A -> nat -> bool) (i : nat) (l : list A) : list A :=
  match l with
  | [] => []
  | x :: r =>
      if p x i then x :: filter_from p (S i) r else filter_from p (S i) r
  end.

Definition filter (p : A -> nat -> bool) (l : list A) : list A :=
  filter_from p 0 l.

(** [l.forEach((x, index) => ...)] where the body updates the variables
    it closes over, gathered in a state [St]. *)
Fixpoint forEach_from {St : Type} (body : A -> nat -> St -> St)
    (i : nat) (l : list A) (s : St) : St :=
  match l with
  | [] => s
  | x :: r => forEach_from body (S i) r (body x i s)
  end.

Definition forEach {St : Type} (body : A -> nat -> St -> St)
    (l : list A) (s : St) : St :=
  forEach_from body 0 l s.

(** [l.reduce((acc, x) => f acc x, init)] *)
Definition reduce {B : Type} (f : B -> A -> B) (l : list A) (init : B) : B :=
  fold_left f l init.

(** [Array.prototype.sort] with a comparator.  The sort is stable; it is
    modelled by insertion, which on a consistent comparator yields the
    array every stable sort yields.  [x] goes behind [y] only when the
    comparator is positive on [(x, y)]. *)
Fixpoint insert (cmp : A -> A -> Q) (x : A) (l : list A) : list A :=
  match l with
  | [] => [x]
  | y :: r => if JS.ltb 0 (cmp x y) then y :: insert cmp x r else x :: l
  end.

Fixpoint sort (cmp : A -> A -> Q) (l : list A) : list A :=
  match l with
  | [] => []
  | x :: r => insert cmp x (sort cmp r)
  end.

(** [l.find(p)] *)
Definition find (p : A -> bool) (l : list A) : option A := List.find p l.

End Indexed.

End JSArray.

(** ** Density Estimator *)

Module Density.
Import JS.

(** The fields of a [CrimeData] record that the pipeline reads.  The feed
    can leave a field out: [None] is a missing (or null) field. *)
Record CrimeData : Type := {
  incident_category : option string;
  incident_description : option string;
  latitude : string;
  longitude : string
}.

(** The weight of a lower-cased category: the chain of conditionals of
    [calculateCrimeDensity]. *)
Definition category_weight (category : string) : Z :=
  if includes category "assault" || includes category "robbery" then 8
  else if includes category "burglary" || includes category "theft"
          || includes category "larceny" then 5
  else if includes category "arson" then 6
  else if includes category "fraud" then 3
  else if includes category "vehicle" || includes category "auto" then 3
  else 1.

(** [Math.sqrt(dLat*dLat + dLon*dLon)] for one record and one point. *)
Definition distance_to (crime : CrimeData) (lat lon : Q) : root :=
  let dLat := sub (parseFloat (latitude crime)) (Fin lat) in
  let dLon := sub (parseFloat (longitude crime)) (Fin lon) in
  Math_sqrt (add (mul dLat dLat) (mul dLon dLon)).

Definition default_radius : Q := 0.005.

Definition calculateCrimeDensity (crimeData : list CrimeData)
    (lat lon : Q) (radius : Q) : Z :=
  JSArray.reduce
    (fun (sum : Z) (crime : CrimeData) =>
       let distance := distance_to crime lat lon in
       if root_gt distance radius then sum
       else
         let category := toLowerCase (or_empty (incident_category crime)) in
         let desc := toLowerCase (or_empty (incident_description crime)) in
         let weight := category_weight category in
         (sum + weight)%Z)
    crimeData 0%Z.

End Density.

(** ** Route Scorer *)

Module Scorer.
Import JS Density.

(** A point [[lat, lon]] of a polyline.  The points come out of the JSON of
    the routing response: their coordinates are finite numbers. *)
Definition coord : Type := (Q * Q)%type.

(** The two accumulators of the sampling loop. *)
Record totals : Type := {
  totalCrimeScore : Z;
  maxCrimeAtPoint : Z
}.

Definition samplePoints (coordinates : list coord) : list coord :=
  JSArray.filter (fun _ index => (index mod 5 =? 0)%nat) coordinates.

Definition accumulate (crimeData : list CrimeData) (points : list coord) : totals :=
  JSArray.forEach
    (fun (c : coord) (_ : nat) (t : totals) =>
       let crimeScore := calculateCrimeDensity crimeData (fst c) (snd c) default_radius in
       {| totalCrimeScore := (totalCrimeScore t + crimeScore)%Z;
          maxCrimeAtPoint := Z.max (maxCrimeAtPoint t) crimeScore |})
    points
    {| totalCrimeScore := 0; maxCrimeAtPoint := 0 |}.

Definition calculateRouteSafetyScore (crimeData : list CrimeData)
    (coordinates : list coord) : Q :=
  if (length coordinates =? 0)%nat || (length crimeData =? 0)%nat then 85
  else
    let samplePoints := samplePoints coordinates in
    let t := accumulate crimeData samplePoints in
    let avgCrimeScore :=
      inject_Z (totalCrimeScore t) / inject_Z (Z.of_nat (length samplePoints)) in
    let normalizedAvg := Qmin (avgCrimeScore / 300) 1.5 in
    let normalizedMax := Qmin (inject_Z (maxCrimeAtPoint t) / 500) 1.5 in
    let safetyScore := 90 - (normalizedAvg * 20 + normalizedMax * 25) in
    let finalScore := Qmax 0 (Qmin 100 safetyScore) in
    finalScore.

Definition getSafetyGrade (score : Q) : string :=
  if Qle_bool 90 score then "A"
  else if Qle_bool 80 score then "B"
  else if Qle_bool 70 score then "C"
  else if Qle_bool 60 score then "D"
  else "F".

End Scorer.

(** ** Risk Segment Locator *)

Module Risk.
Import JS Density Scorer.

Record RiskArea : Type := {
  lat : Q;
  lng : Q;
  risk : string;
  description : string
}.

(** [c.incident_category || c.incident_description] used as a property
    key: a missing description makes the key ["undefined"]. *)
Definition crime_key (c : CrimeData) : string :=
  match incident_category c with
  | Some (String a r) => String a r
  | _ =>
      match incident_description c with
      | Some d => d
      | None => "undefined"
      end
  end.

(** [acc[crime] = (acc[crime] || 0) + 1] on an object whose entries are
    kept in insertion order, the order [Object.entries] lists string keys
    in.  (Keys that spell an array index, which [Object.entries] lists
    first, and keys that an empty object inherits are not told apart.) *)
Fixpoint bump (acc : list (string * nat)) (crime : string) : list (string * nat) :=
  match acc with
  | [] => [(crime, 1%nat)]
  | (k, n) :: r =>
      if String.eqb k crime then (k, S n) :: r else (k, n) :: bump r crime
  end.

Definition show_nat (n : nat) : string := NilZero.string_of_uint (Nat.to_uint n).

Definition nearbyIncidents (crimeData : list CrimeData) (c : coord) : list CrimeData :=
  List.filter (fun crime => root_lt (distance_to crime (fst c) (snd c)) 0.005) crimeData.

Definition topCrime (crimeData : list CrimeData) (c : coord) : option (string * nat) :=
  let commonCrimes :=
    JSArray.reduce bump (map crime_key (nearbyIncidents crimeData c)) [] in
  head (JSArray.sort
          (fun a b => inject_Z (Z.of_nat (snd b)) - inject_Z (Z.of_nat (snd a)))
          commonCrimes).

Definition describe (top : option (string * nat)) : string :=
  match top with
  | Some (crime, count) =>
      ("High " ++ toLowerCase crime ++ " activity (" ++ show_nat count ++ " incidents)")%string
  | None => "High crime activity detected"
  end.

Definition identifyHighRiskAreas (crimeData : list CrimeData)
    (coordinates : list coord) : list RiskArea :=
  JSArray.forEach
    (fun (c : coord) (index : nat) (highRiskAreas : list RiskArea) =>
       if (index mod 10 =? 0)%nat then
         let crimeScore := calculateCrimeDensity crimeData (fst c) (snd c) default_radius in
         if (15 <? crimeScore)%Z then
           let riskLevel :=
             if (50 <? crimeScore)%Z then "high"%string else "medium"%string in
           let riskArea :=
             {| lat := fst c; lng := snd c; risk := riskLevel;
                description := describe (topCrime crimeData c) |} in
           highRiskAreas ++ [riskArea]
         else highRiskAreas
       else highRiskAreas)
    coordinates [].

End Risk.

(** ** Route Selector *)

Module Selector.
Import JS Density Scorer Risk.

(** One alternative of the routing response: [geometry.coordinates] holds
    [lon, lat] pairs. *)
Record RouteData : Type := {
  geometry_coordinates : list (Q * Q);
  distance : Q;
  duration : Q
}.

(** A processed route.  The two display strings, [crimeStats] and [legs]
    are written once and never read by the selection; they are left out. *)
Record Route : Type := {
  index : nat;
  type : string;
  name : string;
  safetyScore : Z;
  safetyGrade : string;
  coordinates : list coord;
  highRiskAreas : list RiskArea;
  distance_meters : Q;
  duration_seconds : Q
}.

Definition set_type (t : string) (r : Route) : Route :=
  {| index := index r; type := t; name := name r;
     safetyScore := safetyScore r; safetyGrade := safetyGrade r;
     coordinates := coordinates r; highRiskAreas := highRiskAreas r;
     distance_meters := distance_meters r; duration_seconds := duration_seconds r |}.

Definition set_name (n : string) (r : Route) : Route :=
  {| index := index r; type := type r; name := n;
     safetyScore := safetyScore r; safetyGrade := safetyGrade r;
     coordinates := coordinates r; highRiskAreas := highRiskAreas r;
     distance_meters := distance_meters r; duration_seconds := duration_seconds r |}.

Definition set_index (i : nat) (r : Route) : Route :=
  {| index := i; type := type r; name := name r;
     safetyScore := safetyScore r; safetyGrade := safetyGrade r;
     coordinates := coordinates r; highRiskAreas := highRiskAreas r;
     distance_meters := distance_meters r; duration_seconds := duration_seconds r |}.

(** STEP 3: one alternative, scored. *)
Definition process (crimeData : list CrimeData) (route : RouteData) (index : nat) : Route :=
  let coordinates := map (fun c : Q * Q => (snd c, fst c)) (geometry_coordinates route) in
  let safetyScore := calculateRouteSafetyScore crimeData coordinates in
  {| index := index;
     type := "alternative";
     name := ("Route Option " ++ show_nat (index + 1))%string;
     safetyScore := Math_round safetyScore;
     safetyGrade := getSafetyGrade safetyScore;
     coordinates := coordinates;
     highRiskAreas := identifyHighRiskAreas crimeData coordinates;
     distance_meters := distance route;
     duration_seconds := duration route |}.

Definition processedRoutes (crimeData : list CrimeData) (routesData : list RouteData)
    : list Route :=
  imap (fun index route => process crimeData route index) routesData.

(** The route objects are shared: the sorted copies, [fastestRoute],
    [safestRoute] and [finalRoutes] hold references to the objects of
    [processedRoutes].  The objects live in a store, a reference is a
    position in it. *)
Abbreviation ref := nat.
Abbreviation store := (list Route).

Definition by_duration (a b : Route) : Q := duration_seconds a - duration_seconds b.
Definition by_safety (a b : Route) : Q :=
  inject_Z (safetyScore b) - inject_Z (safetyScore a).

(** [[...processedRoutes].sort(cmp)]: the references, sorted by the
    objects they point to. *)
Definition sorted_copy (cmp : Route -> Route -> Q) (st : store) : list ref :=
  JSArray.sort
    (fun a b => match st !! a, st !! b with
                | Some x, Some y => cmp x y
                | _, _ => 0
                end)
    (seq 0 (length st)).

Definition differ (st : store) (a b : ref) : bool :=
  match st !! a, st !! b with
  | Some x, Some y =>
      negb (JS.eqb (distance_meters x) (distance_meters y))
      || negb (JS.eqb (duration_seconds x) (duration_seconds y))
  | _, _ => false
  end.

Definition has_type (st : store) (t : string) (r : ref) : bool :=
  match st !! r with
  | Some x => String.eqb (type x) t
  | None => false
  end.

(** What STEP 4 hands over: the routes given to [setRoutes], and the
    route displayed first. *)
Record selection : Type := {
  finalRoutes : list Route;
  defaultRoute : Route
}.

(** STEP 4 on the store of processed routes; [None] when a route that the
    code dereferences does not exist (a [TypeError] in the source). *)
Definition select (st0 : store) : option selection :=
  fastestRoute ← head (sorted_copy by_duration st0);
  let st1 := alter (set_type "fastest") fastestRoute st0 in
  let st2 := alter (set_name "⚡ Fastest Route") fastestRoute st1 in
  safestRoute ← head (sorted_copy by_safety st2);
  let st3 := alter (set_type "safest") safestRoute st2 in
  let st4 := alter (set_name "🛡️ Safest Route") safestRoute st3 in
  let '(finalRefs, st5) :=
    if differ st4 fastestRoute safestRoute
    then ([fastestRoute; safestRoute], st4)
    else
      ([fastestRoute],
       alter (set_type "fastest_safest") fastestRoute
         (alter (set_name "⚡ Fastest & 🛡️ Safest") fastestRoute st4)) in
  let st6 :=
    JSArray.forEach (fun (route : ref) (i : nat) (st : store) => alter (set_index i) route st)
      finalRefs st5 in
  defaultRef ←
    match JSArray.find (has_type st6 "safest") finalRefs with
    | Some r => Some r
    | None =>
        match JSArray.find (has_type st6 "fastest_safest") finalRefs with
        | Some r => Some r
        | None =>
            match JSArray.find (has_type st6 "fastest") finalRefs with
            | Some r => Some r
            | None => head finalRefs
            end
        end
    end;
  final ← mapM (fun r : ref => st6 !! r) finalRefs;
  default ← st6 !! defaultRef;
  Some {| finalRoutes := final; defaultRoute := default |}.

(** STEPS 3 and 4 of [calculateRoute]; an empty response is refused
    before STEP 3 ("Could not calculate any routes via API."). *)
Definition calculateRoute (crimeData : list CrimeData) (routesData : list RouteData)
    : option selection :=
  if (length routesData =? 0)%nat then None
  else select (processedRoutes crimeData routesData).

End Selector.

(** ** Crime statistics of a route *)

Module Stats.
Import JS Density Scorer Risk.

Record CrimeStats : Type := {
  total_incidents : nat;
  high_risk_areas : nat;
  crime_types : list (string * nat)
}.

(** [coordinates.some(coord => distance < 0.005)] for one record. *)
Definition in_corridor (coordinates : list coord) (crime : CrimeData) : bool :=
  existsb (fun c : coord => root_lt (distance_to crime (fst c) (snd c)) 0.005) coordinates.

(** The sorted [topCrimes] are only logged and are left out. *)
Definition calculateCrimeStats (crimeData : list CrimeData)
    (coordinates : list coord) : CrimeStats :=
  if (length crimeData =? 0)%nat
  then {| total_incidents := 0; high_risk_areas := 0; crime_types := [] |}
  else
    let routeCrimes := List.filter (in_corridor coordinates) crimeData in
    let crimeTypes :=
      JSArray.reduce (fun acc crime => bump acc (crime_key crime)) routeCrimes [] in
    let highRiskAreas :=
      length (List.filter
                (fun c : coord =>
                   (15 <? calculateCrimeDensity crimeData (fst c) (snd c) default_radius)%Z)
                coordinates) in
    {| total_incidents := length routeCrimes;
       high_risk_areas := highRiskAreas;
       crime_types := crimeTypes |}.

End Stats.

(** ** Displaying a route *)

Module Display.
Import Selector.

Definition getRouteColor (type : string) : string :=
  if String.eqb type "safest" then "#10b981"
  else if String.eqb type "fastest" then "#f59e0b"
  else if String.eqb type "fastest_safest" then "#3b82f6"
  else if String.eqb type "balanced" then "#3b82f6"
  else "#6b7280".

(** The part of the component state that the route cards read: the routes
    given to [setRoutes], the selected index, and the route on the map. *)
Record view : Type := {
  routes : list Route;
  selectedRouteIndex : nat;
  displayed : option Route
}.

(** The end of [calculateRoute]: [setRoutes(finalRoutes)],
    [setSelectedRouteIndex(defaultRoute.index)], [displayRoute(defaultRoute)]. *)
Definition show_selection (sel : selection) : view :=
  {| routes := finalRoutes sel;
     selectedRouteIndex := index (defaultRoute sel);
     displayed := Some (defaultRoute sel) |}.

(** A click on the card of index [routeIndex]: the index is selected, and
    the route is displayed when there is one at that index. *)
Definition selectRoute (routeIndex : nat) (v : view) : view :=
  {| routes := routes v;
     selectedRouteIndex := routeIndex;
     displayed := match routes v !! routeIndex with
                  | Some selectedRoute => Some selectedRoute
                  | None => displayed v
                  end |}.

End Display.

(** ** Saved routes *)

Module History.

Inductive TransportMode : Type := walking | cycling | driving.

Record SavedRoute : Type := {
  saved_startLocation : string;
  saved_endLocation : string;
  saved_transportMode : TransportMode;
  timestamp : Z
}.

(** The state that [saveRoute], [loadRoute] and [deleteRoute] read and
    write. *)
Record state : Type := {
  startLocation : string;
  endLocation : string;
  transportMode : TransportMode;
  savedRoutes : list SavedRoute;
  showSavedRoutes : bool
}.

Definition is_empty (s : string) : bool :=
  match s with
  | EmptyString => true
  | String _ _ => false
  end.

(** [saveRoute], at the time [now] given by [Date.now()]. *)
Definition saveRoute (now : Z) (st : state) : state :=
  if is_empty (startLocation st) || is_empty (endLocation st) then st
  else
    let newRoute :=
      {| saved_startLocation := startLocation st;
         saved_endLocation := endLocation st;
         saved_transportMode := transportMode st;
         timestamp := now |} in
    {| startLocation := startLocation st;
       endLocation := endLocation st;
       transportMode := transportMode st;
       savedRoutes := newRoute :: take 9 (savedRoutes st);
       showSavedRoutes := showSavedRoutes st |}.

Definition loadRoute (route : SavedRoute) (st : state) : state :=
  {| startLocation := saved_startLocation route;
     endLocation := saved_endLocation route;
     transportMode := saved_transportMode route;
     savedRoutes := savedRoutes st;
     showSavedRoutes := false |}.


End History.

(** ** Polyline decoding *)

Module Polyline.

(** The 32-bit integer operators of JavaScript, on the integer values of
    their operands ([ToInt32] wraps around). *)
Definition ToInt32 (x : Z) : Z := ((x + 2 ^ 31) mod 2 ^ 32 - 2 ^ 31)%Z.

Definition or32 (a b : Z) : Z := ToInt32 (Z.lor (ToInt32 a) (ToInt32 b)).
Definition and32 (a b : Z) : Z := ToInt32 (Z.land (ToInt32 a) (ToInt32 b)).
Definition shl32 (a n : Z) : Z := ToInt32 (Z.shiftl (ToInt32 a) (n mod 32)).
Definition sar32 (a n : Z) : Z := Z.shiftr (ToInt32 a) (n mod 32).
Definition not32 (a : Z) : Z := Z.lnot (ToInt32 a).

Definition charCode (c : ascii) : Z := Z.of_nat (nat_of_ascii c).

(** One [do ... while (byte >= 0x20)] loop, on the rest of the string from
    [index] on.  Past the end [charCodeAt] is [NaN]: [NaN & 0x1f] is 0 and
    [NaN >= 0x20] is false, so the loop ends there. *)
Fixpoint read (rest : string) (shift result : Z) : Z * string :=
  match rest with
  | EmptyString => (or32 result (shl32 0 shift), EmptyString)
  | String c rest' =>
      let byte := (charCode c - 63)%Z in
      let result := or32 result (shl32 (and32 byte 31) shift) in
      if (32 <=? byte)%Z then read rest' (shift + 5) result
      else (result, rest')
  end.

(** [(result & 1) !== 0 ? ~(result >> 1) : result >> 1] *)
Definition delta (result : Z) : Z :=
  if negb (and32 result 1 =? 0)%Z then not32 (sar32 result 1) else sar32 result 1.

(** The [while (index < encoded.length)] loop, at most [fuel] times. *)
Fixpoint decode_from (fuel : nat) (rest : string) (lat lng : Z) : list (Q * Q) :=
  match fuel with
  | O => []
  | S fuel' =>
      match rest with
      | EmptyString => []
      | String _ _ =>
          let '(result, rest1) := read rest 0 0 in
          let lat := (lat + delta result)%Z in
          let '(result, rest2) := read rest1 0 0 in
          let lng := (lng + delta result)%Z in
          (inject_Z lat / 100000, inject_Z lng / 100000)
            :: decode_from fuel' rest2 lat lng
      end
  end.

(** Every turn of the loop moves [index] forward: as many turns as the
    string has characters are enough. *)
Definition decodePolyline (encoded : string) : list (Q * Q) :=
  decode_from (String.length encoded) encoded 0 0.

End Polyline.

(** ** The routing endpoint of the application *)

Module RouteApi.

(** The three fields read from the body of the request; [None] is a field
    that is missing or null. *)
Record body : Type := {
  startCoords : option string;
  endCoords : option string;
  transportMode : option string
}.

(** What the request to the routing server comes back with: the data, or
    an error of axios with the status of the response when there is one. *)
Inductive upstream (D : Type) : Type :=
| Data (data : D)
| AxiosError (message : string) (response_status : option nat).
Arguments Data {D} data.
Arguments AxiosError {D} message response_status.

Record response (D : Type) : Type := {
  status : nat;
  success : bool;
  message : option string;
  data : option D
}.
Arguments status {D} r.
Arguments success {D} r.
Arguments message {D} r.
Arguments data {D} r.

Definition truthy (x : option string) : bool :=
  match x with
  | Some (String _ _) => true
  | _ => false
  end.

(** [getRoutingEndpoint]; [None] is the thrown "Invalid transport mode". *)
Definition getRoutingEndpoint (mode : string) : option string :=
  if String.eqb mode "walking"
  then Some "https://routing.openstreetmap.de/routed-foot/route/v1/foot"
  else if String.eqb mode "cycling"
  then Some "https://routing.openstreetmap.de/routed-bike/route/v1/bike"
  else if String.eqb mode "driving"
  then Some "https://routing.openstreetmap.de/routed-car/route/v1/driving"
  else None.

Section Handler.
Context {D : Type}.

(** The request to the routing server, by its URL. *)
Variable get : string -> upstream D.

(** [POST]: the response, and the URLs requested on the way. *)
Definition POST (b : body) : response D * list string :=
  if negb (truthy (startCoords b)) || negb (truthy (endCoords b))
     || negb (truthy (transportMode b))
  then ({| status := 400; success := false;
           message := Some "Missing required parameters"; data := None |}, [])
  else
    match getRoutingEndpoint (JS.or_empty (transportMode b)) with
    | None =>
        ({| status := 500; success := false;
            message := Some "An unknown routing error occurred"; data := None |}, [])
    | Some routingEndpoint =>
        let url :=
          (routingEndpoint ++ "/" ++ JS.or_empty (startCoords b) ++ ";"
             ++ JS.or_empty (endCoords b))%string in
        match get url with
        | Data d =>
            ({| status := 200; success := true; message := None; data := Some d |},
             [url])
        | AxiosError m st =>
            ({| status := match st with
                          | Some (S n) => S n
                          | _ => 500%nat
                          end;
                success := false;
                message := Some ("Routing Error: " ++ m)%string;
                data := None |},
             [url])
        end
    end.

End Handler.

End RouteApi.

(** ** The stages in the words of the specification *)

Module Spec.
Import JS Density Scorer Risk Selector.

(** What one record adds to the density of a point. *)
Definition contribution (crime : CrimeData) (lat lon radius : Q) : Z :=
  if root_gt (distance_to crime lat lon) radius then 0%Z
  else category_weight (toLowerCase (or_empty (incident_category crime))).

Definition Zsum (l : list Z) : Z := fold_right Z.add 0%Z l.

(** The indices below [n] that the stride [k] divides. *)
Definition stride_indices (k n : nat) : list nat :=
  List.filter (fun i => (i mod k =? 0)%nat) (seq 0 n).

(** The points of a polyline whose index the stride divides, in order. *)
Definition at_stride {A : Type} (k : nat) (l : list A) : list A :=
  omap (fun i => l !! i) (stride_indices k (length l)).

(** The density of each point of a list, with the default radius. *)
Definition densities (crimeData : list CrimeData) (points : list coord) : list Z :=
  map (fun c => calculateCrimeDensity crimeData (fst c) (snd c) default_radius) points.

Definition mean (l : list Z) : Q := inject_Z (Zsum l) / inject_Z (Z.of_nat (length l)).

(** The largest of 0 and the elements of [l]. *)
Definition Zmax0 (l : list Z) : Z := fold_right Z.max 0%Z l.

(** [m] is the maximum of the list [l]. *)
Definition is_max (m : Z) (l : list Z) : Prop :=
  In m l /\ Forall (fun d => (d <= m)%Z) l.

Definition clamp (lo hi x : Q) : Q :=
  if ltb x lo then lo else if ltb hi x then hi else x.

(** The score of a route from the mean and the maximum of its sampled
    densities, before and after the clamp. *)
Definition raw_score (avgDensity maxDensity : Q) : Q :=
  let normAvg := Qmin (avgDensity / 300) 1.5 in
  let normMax := Qmin (maxDensity / 500) 1.5 in
  90 - (normAvg * 20 + normMax * 25).

Definition score_of (avgDensity maxDensity : Q) : Q :=
  clamp 0 100 (raw_score avgDensity maxDensity).

(** The segment of a scanned point: none up to density 15, "medium" up to
    50, "high" above. *)
Definition segment_at (crimeData : list CrimeData) (c : coord) : option RiskArea :=
  let d := calculateCrimeDensity crimeData (fst c) (snd c) default_radius in
  if (d <=? 15)%Z then None
  else Some {| lat := fst c; lng := snd c;
               risk := if (50 <? d)%Z then "high" else "medium";
               description := describe (topCrime crimeData c) |}.

(** [i] is the first position of the least key, of the greatest key. *)
Definition first_least (keys : list Q) (i : nat) : Prop :=
  exists k, keys !! i = Some k
    /\ (forall j k', keys !! j = Some k' -> k <= k')
    /\ (forall j k', (j < i)%nat -> keys !! j = Some k' -> k < k').

Definition first_greatest (keys : list Q) (i : nat) : Prop :=
  exists k, keys !! i = Some k
    /\ (forall j k', keys !! j = Some k' -> k' <= k)
    /\ (forall j k', (j < i)%nat -> keys !! j = Some k' -> k' < k).

(** Two routes have identical distance and duration. *)
Definition same_route (a b : Route) : bool :=
  JS.eqb (distance_meters a) (distance_meters b)
  && JS.eqb (duration_seconds a) (duration_seconds b).

(** A processed route with its role, its title and its place in the output. *)
Definition labelled (role title : string) (i : nat) (r : Route) : Route :=
  set_index i (set_name title (set_type role r)).

(** The place of a grade in the order F < D < C < B < A. *)
Definition grade_rank (grade : string) : nat :=
  if String.eqb grade "A" then 4
  else if String.eqb grade "B" then 3
  else if String.eqb grade "C" then 2
  else if String.eqb grade "D" then 1
  else 0.

(** The route displayed first: role safest, else fastest_safest, else
    fastest, else the first entry. *)
Definition default_of (routes : list Route) : option Route :=
  match List.find (fun r => String.eqb (type r) "safest") routes with
  | Some r => Some r
  | None =>
      match List.find (fun r => String.eqb (type r) "fastest_safest") routes with
      | Some r => Some r
      | None =>
          match List.find (fun r => String.eqb (type r) "fastest") routes with
          | Some r => Some r
          | None => head routes
          end
      end
  end.

End Spec.

(** ** Sample inputs *)

Module Samples.
Import JS Density Scorer Risk Selector.

Definition at_point (category description : option string) (la lo : string) : CrimeData :=
  {| incident_category := category; incident_description := description;
     latitude := la; longitude := lo |}.

(** [n] larceny reports at the point (1, 1). *)
Definition thefts (n : nat) : list CrimeData :=
  repeat (at_point (Some "Larceny Theft") None "1" "1") n.

(** Eleven points, the last of them (index 10) at (1, 1), the others at
    (0, 0). *)
Definition eleven_points : list coord := repeat (0, 0) 10 ++ [(1, 1)].

(** Three assaults at the point (1, 1). *)
Definition three_assaults : list CrimeData :=
  repeat (at_point (Some "Assault") None "1" "1") 3.

(** [n] assaults at the point (0, 0). *)
Definition assaults (n : nat) : list CrimeData :=
  repeat (at_point (Some "Assault") None "0" "0") n.

Definition one_fraud : list CrimeData := [at_point (Some "Fraud") None "0" "0"].

(** A route of 500 seconds through the point (0, 0) and a route of 800
    seconds through the point (1, 1); the routing response lists
    [lon, lat] pairs. *)
Definition route_A : RouteData :=
  {| geometry_coordinates := [(0, 0); (0, 0)]; distance := 1000; duration := 500 |}.

Definition route_B : RouteData :=
  {| geometry_coordinates := [(1, 1); (1, 1)]; distance := 1500; duration := 800 |}.

(** A record without a usable latitude. *)
Definition unlocated : CrimeData := at_point (Some "Assault") None "N/A" "-122.41".

(** A trip from one address to another, on foot, with two saved routes. *)
Definition trip : History.state :=
  {| History.startLocation := "Ferry Building";
     History.endLocation := "Coit Tower";
     History.transportMode := History.walking;
     History.savedRoutes :=
       [{| History.saved_startLocation := "A"; History.saved_endLocation := "B";
           History.saved_transportMode := History.cycling; History.timestamp := 20 |};
        {| History.saved_startLocation := "C"; History.saved_endLocation := "D";
           History.saved_transportMode := History.driving; History.timestamp := 10 |}];
     History.showSavedRoutes := true |}.

(** The three points of the example of the format's documentation, in
    units of 1e-5 degrees. *)
Definition documented_points : list (Z * Z) :=
  [(3850000, -12020000); (4070000, -12095000); (4325200, -12645300)]%Z.

End Samples.

(** ** Reference notions for the statistics, the history and the polyline *)

Module Reference.
Import JS Density Scorer Risk.

(** The count that a tally holds for a key, 0 when the key is not in it. *)
Definition tally_count (acc : list (string * nat)) (k : string) : nat :=
  match List.find (fun e => String.eqb (fst e) k) acc with
  | Some e => snd e
  | None => 0
  end.

(** How many keys of a list are [k]. *)
Definition occurrences (k : string) (keys : list string) : nat :=
  length (List.filter (String.eqb k) keys).

End Reference.

(** ** The encoded polyline format *)

Module PolylineFormat.

(** The writer of the format that [decodePolyline] reads.  The repository
    has no encoder; this one follows the published format: a coordinate in
    units of 1e-5 degrees is written as its difference to the coordinate
    before it, the sign folded into the lowest bit, in groups of five bits
    from the lowest up, each group but the last with the bit 0x20 set, and
    every group offset by 63. *)
Definition chr (v : Z) : ascii := ascii_of_nat (Z.to_nat (v + 63)).

Fixpoint encode_chunks (fuel : nat) (v : Z) : string :=
  match fuel with
  | O => EmptyString
  | S fuel' =>
      if (v <? 32)%Z then String (chr v) EmptyString
      else String (chr (v mod 32 + 32)) (encode_chunks fuel' (v / 32))
  end.

Definition zigzag (d : Z) : Z := if (d <? 0)%Z then (- 2 * d - 1)%Z else (2 * d)%Z.

(** Seven groups hold every value below 2^35. *)
Definition encode_signed (d : Z) : string := encode_chunks 7 (zigzag d).

Fixpoint encode_from (lat lng : Z) (points : list (Z * Z)) : string :=
  match points with
  | [] => EmptyString
  | (a, b) :: rest =>
      (encode_signed (a - lat) ++ encode_signed (b - lng) ++ encode_from a b rest)%string
  end.

Definition encodePolyline (points : list (Z * Z)) : string := encode_from 0 0 points.

(** A difference that the 32-bit operators of the decoder hold. *)
Definition in_range (d : Z) : Prop := (- 2 ^ 30 <= d < 2 ^ 30)%Z.

(** Every point differs from the one before it, the first from (0, 0), by
    differences in range. *)
Fixpoint smooth (lat lng : Z) (points : list (Z * Z)) : Prop :=
  match points with
  | [] => True
  | (a, b) :: rest => in_range (a - lat) /\ in_range (b - lng) /\ smooth a b rest
  end.

End PolylineFormat.

(** ** The request that the component sends *)

Module Client.

(** A match of the geocoder: the fields that the request is built from. *)
Record Location : Type := {
  display_name : string;
  lat : string;
  lon : string
}.

Definition mode_name (mode : History.TransportMode) : string :=
  match mode with
  | History.walking => "walking"
  | History.cycling => "cycling"
  | History.driving => "driving"
  end.

(** The body that [calculateRoute] posts to the routing endpoint of the
    application: [startCoords] and [endCoords] are ["lon,lat"]. *)
Definition route_request (start finish : Location) (transportMode : History.TransportMode)
    : RouteApi.body :=
  {| RouteApi.startCoords := Some (lon start ++ "," ++ lat start)%string;
     RouteApi.endCoords := Some (lon finish ++ "," ++ lat finish)%string;
     RouteApi.transportMode := Some (mode_name transportMode) |}.

End Client.

(** ** Sample places *)

Module Places.

(** Two matches of the geocoder. *)
Definition ferry_building : Client.Location :=
  {| Client.display_name := "Ferry Building"; Client.lat := "37.7955";
     Client.lon := "-122.3937" |}.

Definition coit_tower : Client.Location :=
  {| Client.display_name := "Coit Tower"; Client.lat := "37.8024";
     Client.lon := "-122.4058" |}.

End Places.

(** * Properties *)

(** ** Density Estimator *)

Module DensityFacts.
Import JS Density Spec Samples.

Lemma category_weight_pos (category : string) : (1 <= category_weight category)%Z.
Proof.
  unfold category_weight.
  repeat match goal with |- context [if ?b then _ else _] => destruct b end; lia.
Qed.

Lemma contribution_nonneg crime lat lon radius :
  (0 <= contribution crime lat lon radius)%Z.
Proof.
  unfold contribution. destruct (root_gt _ _); [lia|].
  pose proof (category_weight_pos (toLowerCase (or_empty (incident_category crime)))). lia.
Qed.

Lemma reduce_from (crimeData : list CrimeData) lat lon radius (acc : Z) :
  fold_left
    (fun (sum : Z) (crime : CrimeData) =>
       let distance := distance_to crime lat lon in
       if root_gt distance radius then sum
       else
         let category := toLowerCase (or_empty (incident_category crime)) in
         let desc := toLowerCase (or_empty (incident_description crime)) in
         let weight := category_weight category in
         (sum + weight)%Z)
    crimeData acc
  = (acc + Zsum (map (fun crime => contribution crime lat lon radius) crimeData))%Z.
Proof.
  revert acc. induction crimeData as [|crime rest IH]; intros acc; simpl.
  - lia.
  - rewrite IH. unfold contribution at 2.
    destruct (root_gt (distance_to crime lat lon) radius); simpl; lia.
Qed.

(** The density is the sum of the contributions of the records. *)
Lemma density_sum crimeData lat lon radius :
  calculateCrimeDensity crimeData lat lon radius
  = Zsum (map (fun crime => contribution crime lat lon radius) crimeData).
Proof.
  unfold calculateCrimeDensity, JSArray.reduce. rewrite reduce_from. lia.
Qed.

Lemma Zsum_app (l1 l2 : list Z) : Zsum (l1 ++ l2) = (Zsum l1 + Zsum l2)%Z.
Proof. induction l1 as [|x l1 IH]; simpl; [|rewrite IH]; lia. Qed.

Lemma density_nonneg crimeData lat lon radius :
  (0 <= calculateCrimeDensity crimeData lat lon radius)%Z.
Proof.
  rewrite density_sum. induction crimeData as [|crime rest IH]; simpl; [lia|].
  pose proof (contribution_nonneg crime lat lon radius). lia.
Qed.

(** Adding a record anywhere in the list adds its contribution. *)
Lemma density_add (l1 l2 : list CrimeData) crime lat lon radius :
  calculateCrimeDensity (l1 ++ crime :: l2) lat lon radius
  = (calculateCrimeDensity (l1 ++ l2) lat lon radius
     + contribution crime lat lon radius)%Z.
Proof.
  rewrite !density_sum, !map_app, !Zsum_app. simpl. lia.
Qed.

Lemma add_NaN_r (a : num) : add a NaN = NaN.
Proof. destruct a; reflexivity. Qed.

(** A coordinate that does not parse makes the distance [NaN], and [NaN]
    is not greater than any radius: the record is counted. *)
Lemma unparsable_not_skipped (crime : CrimeData) lat lon radius :
  parseFloat (latitude crime) = NaN \/ parseFloat (longitude crime) = NaN ->
  contribution crime lat lon radius
  = category_weight (toLowerCase (or_empty (incident_category crime))).
Proof.
  intros H. unfold contribution, distance_to, Math_sqrt, root_gt, sub. simpl.
  destruct H as [-> | ->]; simpl; rewrite ?add_NaN_r; reflexivity.
Qed.

Lemma Qsquare_nonneg (a : Q) : 0 <= a * a.
Proof.
  destruct a as [n d]. unfold Qle, Qmult. simpl.
  rewrite Z.mul_1_r. apply Z.square_nonneg.
Qed.

(** A record whose coordinates parse to finite numbers is counted exactly
    when the squared distance is at most the squared radius. *)
Lemma finite_contribution (crime : CrimeData) (la lo lat lon radius : Q) :
  parseFloat (latitude crime) = Fin la ->
  parseFloat (longitude crime) = Fin lo ->
  0 <= radius ->
  contribution crime lat lon radius
  = if Qle_bool ((la - lat) * (la - lat) + (lo - lon) * (lo - lon)) (radius * radius)
    then category_weight (toLowerCase (or_empty (incident_category crime)))
    else 0%Z.
Proof.
  intros Hla Hlo Hr. unfold contribution, distance_to, Math_sqrt, root_gt, sub.
  rewrite Hla, Hlo. simpl.
  set (x := (la + - lat) * (la + - lat) + (lo + - lon) * (lo + - lon)).
  assert (Hx : 0 <= x).
  { pose proof (Qsquare_nonneg (la + - lat)). pose proof (Qsquare_nonneg (lo + - lon)).
    unfold x. lra. }
  unfold is_neg, ltb.
  assert (E1 : Qle_bool 0 x = true) by (apply Qle_bool_iff; exact Hx).
  assert (E2 : Qle_bool 0 radius = true) by (apply Qle_bool_iff; exact Hr).
  rewrite E1, E2. simpl. unfold Qminus. fold x.
  destruct (Qle_bool x (radius * radius)); reflexivity.
Qed.

(** C2.  At the point (37.77, -122.41) with the default radius, a record
    with category "Assault" at that point has density 8; the same record
    with the word in its description and no category, or an empty one, has
    density 1: the description is lower-cased and then not looked at.  The weights of
    the other categories are as listed, the first matching line winning,
    and a record 0.005 degrees away is counted while one further away is
    not. *)
Theorem density_ignores_description :
  calculateCrimeDensity
    [at_point (Some "Assault") None "37.77" "-122.41"] 37.77 (-122.41) default_radius = 8%Z
  /\ calculateCrimeDensity
    [at_point None (Some "Assault") "37.77" "-122.41"] 37.77 (-122.41) default_radius = 1%Z
  /\ calculateCrimeDensity
    [at_point (Some "") (Some "Assault") "37.77" "-122.41"] 37.77 (-122.41) default_radius = 1%Z
  /\ map (fun c => category_weight (toLowerCase c))
       ["Robbery"; "Burglary"; "Larceny Theft"; "Arson"; "Fraud";
        "Motor Vehicle Theft"; "Stolen Auto"; "Recovered Vehicle"; "Vandalism"; ""]
     = [8; 5; 5; 6; 3; 5; 3; 3; 1; 1]%Z
  /\ calculateCrimeDensity
    [at_point (Some "Arson") None "37.775" "-122.41"] 37.77 (-122.41) default_radius = 6%Z
  /\ calculateCrimeDensity
    [at_point (Some "Arson") None "37.7751" "-122.41"] 37.77 (-122.41) default_radius = 0%Z.
Proof. repeat split; vm_compute; reflexivity. Qed.

(** C4.  A record whose latitude does not parse is not skipped: with
    category "Assault" it adds 8 to the density of the point (0, 0), and of
    the point (40, -74), although it lies near neither; the density of a
    record with parsable, far away coordinates is 0 there. *)
Theorem unparsable_coordinate_counted :
  parseFloat "N/A" = NaN
  /\ calculateCrimeDensity
       [at_point (Some "Assault") None "N/A" "-122.41"] 0 0 default_radius = 8%Z
  /\ calculateCrimeDensity
       [at_point (Some "Assault") None "N/A" "-122.41"] 40 (-74) default_radius = 8%Z
  /\ calculateCrimeDensity
       [at_point (Some "Assault") None "37.77" "-122.41"] 40 (-74) default_radius = 0%Z.
Proof. repeat split; vm_compute; reflexivity. Qed.

End DensityFacts.

(** ** Sampling at a stride *)

Module StrideFacts.
Import Spec.

Section Stride.
Context {A : Type}.
Variable q : nat -> bool.

Lemma omap_lookup_shift (x : A) (l : list A) (i : nat) (js : list nat) :
  Forall (fun j => (S i <= j)%nat) js ->
  omap (fun j => (x :: l) !! (j - i)%nat) js = omap (fun j => l !! (j - S i)%nat) js.
Proof.
  intros H. apply list_omap_ext, Forall_Forall2_diag.
  eapply Forall_impl; [exact H|]. intros j Hj. simpl in Hj.
  replace (j - i)%nat with (S (j - S i)) by lia. reflexivity.
Qed.

Lemma Forall_filter_seq (i n : nat) :
  Forall (fun j => (i <= j)%nat) (List.filter q (seq i n)).
Proof.
  apply List.Forall_forall. intros j Hj.
  apply List.filter_In in Hj as [Hj _]. apply List.in_seq in Hj. lia.
Qed.

(** A filter on the index alone keeps the elements at the indices that
    pass, in order. *)
Lemma filter_from_indices (l : list A) (i : nat) :
  JSArray.filter_from (fun _ j => q j) i l
  = omap (fun j => l !! (j - i)%nat) (List.filter q (seq i (length l))).
Proof.
  revert i. induction l as [|x l IH]; intros i; [reflexivity|].
  assert (HF : Forall (fun j => (S i <= j)%nat) (List.filter q (seq (S i) (length l))))
    by apply Forall_filter_seq.
  cbn [JSArray.filter_from length seq List.filter]. rewrite IH.
  rewrite <- (omap_lookup_shift x l i _ HF).
  destruct (q i); [|reflexivity].
  cbn [omap list_omap]. rewrite Nat.sub_diag. reflexivity.
Qed.

Lemma filter_indices (l : list A) :
  JSArray.filter (fun _ j => q j) l
  = omap (fun j => l !! j) (List.filter q (seq 0 (length l))).
Proof.
  unfold JSArray.filter. rewrite filter_from_indices.
  apply list_omap_ext. apply Forall2_same_length_lookup. split; [reflexivity|].
  intros i x y Hx Hy. rewrite Hx in Hy. injection Hy as <-.
  rewrite Nat.sub_0_r. reflexivity.
Qed.

(** A loop that acts only at the indices that pass is a loop over the
    elements kept by the filter. *)
Lemma forEach_from_filter {St : Type} (act : A -> St -> St) (l : list A) (i : nat) (s : St) :
  JSArray.forEach_from (fun x j s => if q j then act x s else s) i l s
  = fold_left (fun s x => act x s) (JSArray.filter_from (fun _ j => q j) i l) s.
Proof.
  revert i s. induction l as [|x l IH]; intros i s; simpl; [reflexivity|].
  rewrite IH. destruct (q i); reflexivity.
Qed.

End Stride.

Lemma stride_head {A : Type} (k : nat) (x : A) (l : list A) :
  head (at_stride k (x :: l)) = Some x.
Proof.
  unfold at_stride, stride_indices. simpl length. simpl seq. simpl List.filter.
  rewrite Nat.Div0.mod_0_l. reflexivity.
Qed.

End StrideFacts.

(** ** Route Scorer *)

Module ScorerFacts.
Import JS Density Scorer Spec Samples DensityFacts StrideFacts.

Lemma samplePoints_at_stride (coordinates : list coord) :
  samplePoints coordinates = at_stride 5 coordinates.
Proof. apply (filter_indices (fun i => (i mod 5 =? 0)%nat)). Qed.

Lemma samplePoints_cons (c : coord) (coordinates : list coord) :
  exists rest, samplePoints (c :: coordinates) = c :: rest.
Proof. unfold samplePoints, JSArray.filter. simpl. eauto. Qed.

Lemma densities_nonneg crimeData points :
  Forall (fun d => (0 <= d)%Z) (densities crimeData points).
Proof.
  unfold densities. apply Forall_map, Forall_forall. intros c _.
  apply density_nonneg.
Qed.

Lemma Zmax0_nonneg (l : list Z) : (0 <= Zmax0 l)%Z.
Proof. induction l as [|d l IH]; simpl; lia. Qed.

Lemma Zmax0_upper (l : list Z) : Forall (fun d => (d <= Zmax0 l)%Z) l.
Proof.
  induction l as [|d l IH]; simpl; constructor; [lia|].
  eapply Forall_impl; [exact IH|]. simpl. intros; lia.
Qed.

Lemma Zmax0_attained (l : list Z) : Zmax0 l = 0%Z \/ In (Zmax0 l) l.
Proof.
  induction l as [|d l IH]; simpl; [left; reflexivity|].
  destruct (Z.max_spec d (Zmax0 l)) as [[_ ->] | [_ ->]]; [|right; left; reflexivity].
  destruct IH as [IH | IH]; [left; exact IH | right; right; exact IH].
Qed.

Lemma Zmax0_is_max (l : list Z) :
  l <> [] -> Forall (fun d => (0 <= d)%Z) l -> is_max (Zmax0 l) l.
Proof.
  intros Hne Hpos. split; [|apply Zmax0_upper].
  destruct (Zmax0_attained l) as [H0 | Hin]; [|exact Hin].
  destruct l as [|d l]; [congruence|].
  pose proof (Zmax0_upper (d :: l)) as Hup. rewrite H0 in *.
  inversion Hup; inversion Hpos; subst. left. lia.
Qed.

Lemma Zsum_nonneg (l : list Z) : Forall (fun d => (0 <= d)%Z) l -> (0 <= Zsum l)%Z.
Proof. induction 1; simpl; lia. Qed.

(** The loop over the sample points leaves the sum and the largest of the
    densities in its two accumulators. *)
Lemma accumulate_from crimeData (points : list coord) (i : nat) (t : totals) :
  (0 <= maxCrimeAtPoint t)%Z ->
  JSArray.forEach_from
    (fun (c : coord) (_ : nat) (t : totals) =>
       let crimeScore := calculateCrimeDensity crimeData (fst c) (snd c) default_radius in
       {| totalCrimeScore := (totalCrimeScore t + crimeScore)%Z;
          maxCrimeAtPoint := Z.max (maxCrimeAtPoint t) crimeScore |})
    i points t
  = {| totalCrimeScore := (totalCrimeScore t + Zsum (densities crimeData points))%Z;
       maxCrimeAtPoint := Z.max (maxCrimeAtPoint t) (Zmax0 (densities crimeData points)) |}.
Proof.
  revert i t. induction points as [|c points IH]; intros i t Ht; simpl.
  - destruct t as [s m]. simpl in *. f_equal; lia.
  - rewrite IH by (simpl; lia). simpl. f_equal; lia.
Qed.

Lemma accumulate_totals crimeData (points : list coord) :
  accumulate crimeData points
  = {| totalCrimeScore := Zsum (densities crimeData points);
       maxCrimeAtPoint := Zmax0 (densities crimeData points) |}.
Proof.
  unfold accumulate, JSArray.forEach. rewrite accumulate_from by (simpl; lia).
  simpl. pose proof (Zmax0_nonneg (densities crimeData points)). f_equal; lia.
Qed.

(** The score of a route with points, on a list with incidents, before the
    guard is folded into the spec's words. *)
Lemma score_unfold crimeData (coordinates : list coord) :
  coordinates <> [] -> crimeData <> [] ->
  let ds := densities crimeData (at_stride 5 coordinates) in
  calculateRouteSafetyScore crimeData coordinates
  = Qmax 0 (Qmin 100 (raw_score (mean ds) (inject_Z (Zmax0 ds)))).
Proof.
  intros Hc Hd ds. unfold calculateRouteSafetyScore.
  destruct coordinates as [|c coordinates]; [congruence|].
  destruct crimeData as [|crime crimeData]; [congruence|].
  cbn [length Nat.eqb orb].
  rewrite accumulate_totals, samplePoints_at_stride. cbn [totalCrimeScore maxCrimeAtPoint].
  unfold raw_score, mean, ds, densities. rewrite length_map. reflexivity.
Qed.

Lemma clamp_min_max (x : Q) : Qmax 0 (Qmin 100 x) == clamp 0 100 x.
Proof.
  unfold clamp, ltb.
  destruct (Qle_bool 0 x) eqn:E0; simpl.
  - apply Qle_bool_iff in E0.
    destruct (Qle_bool x 100) eqn:E1; simpl.
    + apply Qle_bool_iff in E1. rewrite (Q.min_r 100 x E1). apply Q.max_r. exact E0.
    + assert (H : 100 <= x).
      { destruct (Qlt_le_dec x 100) as [Hlt | Hle]; [|exact Hle].
        apply Qlt_le_weak, Qle_bool_iff in Hlt. congruence. }
      rewrite (Q.min_l 100 x H). apply Q.max_r. lra.
  - assert (H : x < 0).
    { destruct (Qlt_le_dec x 0) as [Hlt | Hle]; [exact Hlt|].
      apply Qle_bool_iff in Hle. congruence. }
    assert (H1 : x <= 100) by lra.
    rewrite (Q.min_r 100 x H1). apply Q.max_l. lra.
Qed.

Lemma mean_nonneg (l : list Z) : Forall (fun d => (0 <= d)%Z) l -> 0 <= mean l.
Proof.
  intros H. unfold mean, Qdiv. apply Qmult_le_0_compat.
  - change 0 with (inject_Z 0). rewrite <- Zle_Qle. apply Zsum_nonneg, H.
  - apply Qinv_le_0_compat. change 0 with (inject_Z 0). rewrite <- Zle_Qle. lia.
Qed.

Lemma mean_zero (l : list Z) : Zsum l = 0%Z -> mean l == 0.
Proof. intros H. unfold mean. rewrite H. unfold Qdiv. apply Qmult_0_l. Qed.

Lemma by_300 (a : Q) : 300 * (a / 300) == a.
Proof. apply Qmult_div_r. discriminate. Qed.

Lemma by_500 (m : Q) : 500 * (m / 500) == m.
Proof. apply Qmult_div_r. discriminate. Qed.

(** Names the two quotients of [raw_score], for linear arithmetic. *)
Ltac name_quotients a m :=
  let x := fresh "x" in
  let y := fresh "y" in
  pose proof (by_300 a); pose proof (by_500 m);
  set (x := a / 300) in *; set (y := m / 500) in *; clearbody x y;
  let E1 := fresh "E" in
  let E2 := fresh "E" in
  destruct (Q.min_spec x 1.5) as [[? E1] | [? E1]];
  destruct (Q.min_spec y 1.5) as [[? E2] | [? E2]];
  rewrite E1, E2.

(** The penalty is at most 1.5 * 20 + 1.5 * 25 = 67.5. *)
Lemma raw_score_bounds (a m : Q) :
  0 <= a -> 0 <= m -> 22.5 <= raw_score a m /\ raw_score a m <= 90.
Proof.
  intros Ha Hm. unfold raw_score. name_quotients a m; split; lra.
Qed.

Lemma raw_score_top (a m : Q) :
  0 <= a -> 0 <= m -> (90 <= raw_score a m <-> a == 0 /\ m == 0).
Proof.
  intros Ha Hm. unfold raw_score.
  name_quotients a m; split; intros; try split; lra.
Qed.

Lemma inside_clamp (x : Q) : 0 <= x -> x <= 100 -> Qmax 0 (Qmin 100 x) == x.
Proof. intros H0 H1. rewrite (Q.min_r 100 x H1). apply Q.max_r, H0. Qed.

Lemma grade_A (score : Q) : getSafetyGrade score = "A" <-> 90 <= score.
Proof.
  unfold getSafetyGrade. destruct (Qle_bool 90 score) eqn:E.
  - apply Qle_bool_iff in E. tauto.
  - split; [|intros H; apply Qle_bool_iff in H; congruence].
    repeat match goal with |- context [if ?b then _ else _] => destruct b end;
      discriminate.
Qed.

Lemma all_zero_iff_max (l : list Z) :
  Forall (fun d => (0 <= d)%Z) l ->
  (Forall (fun d => d = 0%Z) l <-> Zmax0 l = 0%Z).
Proof.
  intros Hpos. pose proof (Zmax0_upper l) as Hup. split.
  - intros H. destruct (Zmax0_attained l) as [E | Hin]; [exact E|].
    rewrite Forall_forall in H. apply H, list_elem_of_In, Hin.
  - intros E. rewrite E in Hup. rewrite Forall_forall in *.
    intros d Hd. specialize (Hup d Hd). specialize (Hpos d Hd). simpl in *. lia.
Qed.

Lemma all_zero_sum (l : list Z) : Forall (fun d => d = 0%Z) l -> Zsum l = 0%Z.
Proof. induction 1; simpl; lia. Qed.

(** C1.  On a polyline with points and a list with incidents the score is
    computed from the points at the indices divisible by 5, the first point
    among them: from the mean and the maximum of their densities at the
    default radius, as 90 - (min(mean/300, 1.5) * 20 + min(max/500, 1.5) * 25)
    clamped to [0, 100]. *)
Theorem score_samples_every_fifth_point crimeData (coordinates : list coord) :
  coordinates <> [] -> crimeData <> [] ->
  let points := at_stride 5 coordinates in
  let ds := densities crimeData points in
  samplePoints coordinates = points
  /\ head points = head coordinates
  /\ exists maxDensity,
       is_max maxDensity ds
       /\ calculateRouteSafetyScore crimeData coordinates
          == score_of (mean ds) (inject_Z maxDensity).
Proof.
  intros Hc Hd points ds.
  split; [apply samplePoints_at_stride|].
  split; [destruct coordinates as [|c r]; [congruence|apply stride_head]|].
  exists (Zmax0 ds). split.
  - apply Zmax0_is_max; [|apply densities_nonneg].
    destruct coordinates as [|c r]; [congruence|].
    destruct (samplePoints_cons c r) as [rest E].
    unfold ds, points. rewrite <- samplePoints_at_stride, E. discriminate.
  - rewrite score_unfold by assumption. apply clamp_min_max.
Qed.

Lemma score_samples_every_fifth_point_witness :
  let coordinates : list coord := [(0, 0); (0, 1); (0, 2); (0, 3); (0, 4); (0, 5)] in
  let crimeData := [at_point (Some "Assault") None "0" "5"] in
  samplePoints coordinates = [(0, 0); (0, 5)]
  /\ exists maxDensity,
       is_max maxDensity [0; 8]%Z
       /\ calculateRouteSafetyScore crimeData coordinates
          == score_of (mean [0; 8]%Z) (inject_Z maxDensity).
Proof.
  intros coordinates crimeData.
  destruct (score_samples_every_fifth_point crimeData coordinates) as (H1 & _ & H3);
    [discriminate | discriminate |].
  split; [exact H1 | exact H3].
Defined.

(** C7.  Without incidents, or without points, the score is 85. *)
Theorem score_default_without_data crimeData (coordinates : list coord) :
  crimeData = [] \/ coordinates = [] ->
  calculateRouteSafetyScore crimeData coordinates = 85.
Proof.
  intros [-> | ->]; unfold calculateRouteSafetyScore; simpl;
    [destruct (length coordinates =? 0)%nat|]; reflexivity.
Qed.

Lemma score_default_without_data_witness :
  calculateRouteSafetyScore [] [(37.77, -122.41); (37.78, -122.41)] = 85
  /\ calculateRouteSafetyScore [at_point (Some "Assault") None "37.77" "-122.41"] [] = 85.
Proof.
  split; apply score_default_without_data; [left | right]; reflexivity.
Defined.

(** On a polyline with points and a list with incidents the clamp is the
    identity. *)
Lemma score_is_raw crimeData (coordinates : list coord) :
  coordinates <> [] -> crimeData <> [] ->
  let ds := densities crimeData (at_stride 5 coordinates) in
  calculateRouteSafetyScore crimeData coordinates
  == raw_score (mean ds) (inject_Z (Zmax0 ds)).
Proof.
  intros Hc Hd ds.
  assert (Hpos : Forall (fun d => (0 <= d)%Z) ds) by apply densities_nonneg.
  assert (Ha : 0 <= mean ds) by (apply mean_nonneg, Hpos).
  assert (Hm : 0 <= inject_Z (Zmax0 ds)).
  { change 0 with (inject_Z 0). rewrite <- Zle_Qle. apply Zmax0_nonneg. }
  destruct (raw_score_bounds _ _ Ha Hm) as [Hlo Hhi].
  rewrite score_unfold by assumption. apply inside_clamp; lra.
Qed.

(** C10.  A computed score lies in [22.5, 90]: the clamp is never reached,
    and the grade is A exactly when every sampled point has density 0. *)
Theorem computed_score_bounds crimeData (coordinates : list coord) :
  coordinates <> [] -> crimeData <> [] ->
  let ds := densities crimeData (at_stride 5 coordinates) in
  let score := calculateRouteSafetyScore crimeData coordinates in
  22.5 <= score /\ score <= 90
  /\ score == raw_score (mean ds) (inject_Z (Zmax0 ds))
  /\ (getSafetyGrade score = "A" <-> Forall (fun d => d = 0%Z) ds).
Proof.
  intros Hc Hd ds score.
  assert (Hpos : Forall (fun d => (0 <= d)%Z) ds) by apply densities_nonneg.
  assert (Ha : 0 <= mean ds) by (apply mean_nonneg, Hpos).
  assert (Hm : 0 <= inject_Z (Zmax0 ds)).
  { change 0 with (inject_Z 0). rewrite <- Zle_Qle. apply Zmax0_nonneg. }
  destruct (raw_score_bounds _ _ Ha Hm) as [Hlo Hhi].
  assert (E : score == raw_score (mean ds) (inject_Z (Zmax0 ds)))
    by (apply score_is_raw; assumption).
  repeat split; try (rewrite E; lra); try exact E.
  - intros HA. apply grade_A in HA. rewrite E in HA.
    apply raw_score_top in HA as [_ HM]; try assumption.
    apply all_zero_iff_max; [exact Hpos|].
    apply (inject_Z_injective (Zmax0 ds) 0), HM.
  - intros H0. apply grade_A. rewrite E. apply raw_score_top; try assumption.
    split.
    + apply mean_zero, all_zero_sum, H0.
    + apply all_zero_iff_max in H0; [|exact Hpos]. rewrite H0. reflexivity.
Qed.

Lemma computed_score_bounds_witness :
  let crimeData := [at_point (Some "Assault") None "0" "5"] in
  let coordinates : list coord := [(0, 0); (0, 1); (0, 2); (0, 3); (0, 4); (0, 5)] in
  let score := calculateRouteSafetyScore crimeData coordinates in
  22.5 <= score /\ score <= 90
  /\ (getSafetyGrade score = "A" <-> Forall (fun d => d = 0%Z) [0; 8]%Z).
Proof.
  intros crimeData coordinates score.
  destruct (computed_score_bounds crimeData coordinates) as (H1 & H2 & _ & H4);
    [discriminate | discriminate |].
  split; [exact H1 | split; [exact H2 | exact H4]].
Defined.

End ScorerFacts.

(** ** Risk Segment Locator *)

Module RiskFacts.
Import JS Density Scorer Risk Spec Samples DensityFacts StrideFacts ScorerFacts.

Lemma push_segments crimeData (points : list coord) (acc : list RiskArea) :
  fold_left
    (fun (highRiskAreas : list RiskArea) (c : coord) =>
       let crimeScore := calculateCrimeDensity crimeData (fst c) (snd c) default_radius in
       if (15 <? crimeScore)%Z then
         let riskLevel := if (50 <? crimeScore)%Z then "high" else "medium" in
         let riskArea :=
           {| lat := fst c; lng := snd c; risk := riskLevel;
              description := describe (topCrime crimeData c) |} in
         highRiskAreas ++ [riskArea]
       else highRiskAreas)
    points acc
  = acc ++ omap (segment_at crimeData) points.
Proof.
  revert acc. induction points as [|c points IH]; intros acc.
  - simpl. rewrite app_nil_r. reflexivity.
  - cbn [fold_left]. rewrite IH. cbn [omap list_omap]. fold (omap (segment_at crimeData) points).
    unfold segment_at at 2. cbv zeta.
    rewrite (Z.leb_antisym 15). 
    destruct (15 <? calculateCrimeDensity crimeData (fst c) (snd c) default_radius)%Z; simpl.
    + rewrite <- app_assoc. reflexivity.
    + reflexivity.
Qed.

(** The locator emits, in the order of the polyline, the segments of the
    points at the indices divisible by 10. *)
Lemma locator_scans_stride crimeData (coordinates : list coord) :
  identifyHighRiskAreas crimeData coordinates
  = omap (segment_at crimeData) (at_stride 10 coordinates).
Proof.
  unfold identifyHighRiskAreas, JSArray.forEach.
  rewrite (forEach_from_filter (fun i => (i mod 10 =? 0)%nat)
             (fun (c : coord) (highRiskAreas : list RiskArea) =>
                let crimeScore :=
                  calculateCrimeDensity crimeData (fst c) (snd c) default_radius in
                if (15 <? crimeScore)%Z then
                  highRiskAreas
                  ++ [{| lat := fst c; lng := snd c;
                         risk := if (50 <? crimeScore)%Z then "high" else "medium";
                         description := describe (topCrime crimeData c) |}]
                else highRiskAreas)).
  rewrite push_segments.
  change (JSArray.filter_from (fun _ j => (j mod 10 =? 0)%nat) 0 coordinates)
    with (JSArray.filter (fun _ j => (j mod 10 =? 0)%nat) coordinates).
  rewrite (filter_indices (fun i => (i mod 10 =? 0)%nat)). reflexivity.
Qed.

(** C6.  The locator scans the points at the indices divisible by 10 and
    emits, in polyline order, a segment for each of them whose density is
    above 15: "high" above 50, "medium" otherwise.  Of 101 points it scans
    the 11 indices 0, 10, ..., 100, where the scorer samples the 21 indices
    0, 5, ..., 100.  A scanned point of density 60 is emitted as "high", of
    density 20 as "medium", of density 10 not at all. *)
Theorem locator_stride_and_thresholds crimeData (coordinates : list coord) :
  identifyHighRiskAreas crimeData coordinates
  = omap (segment_at crimeData) (at_stride 10 coordinates)
  /\ samplePoints coordinates = at_stride 5 coordinates
  /\ stride_indices 10 101 = [0; 10; 20; 30; 40; 50; 60; 70; 80; 90; 100]%nat
  /\ stride_indices 5 101
     = [0; 5; 10; 15; 20; 25; 30; 35; 40; 45; 50; 55; 60; 65; 70; 75; 80; 85;
        90; 95; 100]%nat
  /\ (forall c : coord,
        let d := calculateCrimeDensity crimeData (fst c) (snd c) default_radius in
        risk <$> segment_at crimeData c
        = if (d <=? 15)%Z then None
          else if (50 <? d)%Z then Some "high" else Some "medium")
  /\ (calculateCrimeDensity (thefts 12) 1 1 default_radius = 60%Z
      /\ map risk (identifyHighRiskAreas (thefts 12) eleven_points) = ["high"])
  /\ (calculateCrimeDensity (thefts 4) 1 1 default_radius = 20%Z
      /\ map risk (identifyHighRiskAreas (thefts 4) eleven_points) = ["medium"])
  /\ (calculateCrimeDensity (thefts 2) 1 1 default_radius = 10%Z
      /\ identifyHighRiskAreas (thefts 2) eleven_points = []).
Proof.
  split; [apply locator_scans_stride|].
  split; [apply samplePoints_at_stride|].
  split; [reflexivity|]. split; [reflexivity|].
  split.
  - intros c d. unfold segment_at. fold d.
    destruct (d <=? 15)%Z; [reflexivity|]. simpl.
    destruct (50 <? d)%Z; reflexivity.
  - repeat split; vm_compute; reflexivity.
Qed.

(** The locator finds nothing on a polyline without points. *)
Lemma locator_empty crimeData : identifyHighRiskAreas crimeData [] = [].
Proof. reflexivity. Qed.

Lemma locator_single crimeData (p : coord) :
  identifyHighRiskAreas crimeData [p] = option_list (segment_at crimeData p).
Proof.
  rewrite locator_scans_stride. unfold at_stride, stride_indices. simpl.
  destruct (segment_at crimeData p); reflexivity.
Qed.

Lemma mean_single (d : Z) : mean [d] == inject_Z d.
Proof.
  unfold mean, Zsum. cbn [fold_right length]. rewrite Z.add_0_r.
  change (inject_Z (Z.of_nat 1)) with 1. field.
Qed.

Lemma raw_score_compat (a a' m : Q) : a == a' -> raw_score a m == raw_score a' m.
Proof. intros E. unfold raw_score. rewrite E. reflexivity. Qed.

(** C5, as the code has it.  On a polyline without points the scorer returns
    85 and the locator finds nothing.  A single point is sampled and
    scanned like the first point of any polyline: on a list with incidents
    the score is computed from the density of that point alone (the divisor
    is 1, not 0), and the locator emits the segment of the point when its
    density is above 15. *)
Theorem empty_polyline_default crimeData :
  calculateRouteSafetyScore crimeData [] = 85
  /\ identifyHighRiskAreas crimeData [] = []
  /\ forall (crime : CrimeData) (p : coord),
       let incidents := crime :: crimeData in
       let d := calculateCrimeDensity incidents (fst p) (snd p) default_radius in
       samplePoints [p] = [p]
       /\ calculateRouteSafetyScore incidents [p] == raw_score (inject_Z d) (inject_Z d)
       /\ identifyHighRiskAreas incidents [p] = option_list (segment_at incidents p).
Proof.
  split; [reflexivity|]. split; [reflexivity|].
  intros crime p incidents d.
  split; [reflexivity|]. split; [|apply locator_single].
  rewrite (score_is_raw incidents [p]) by discriminate. change (densities incidents (at_stride 5 [p])) with [d].
  assert (Hd : (0 <= d)%Z) by apply density_nonneg.
  replace (Zmax0 [d]) with d by (simpl; lia).
  apply raw_score_compat, mean_single.
Qed.

(** C5 fails on a single point: with three assaults at the point (1, 1) the
    polyline made of that point scores 87.2, not 85, and has a "medium"
    segment. *)
Lemma single_point_is_scored :
  calculateRouteSafetyScore three_assaults [(1, 1)] == 87.2
  /\ ~ calculateRouteSafetyScore three_assaults [(1, 1)] == 85
  /\ identifyHighRiskAreas three_assaults [(1, 1)]
     = [{| lat := 1; lng := 1; risk := "medium";
           description := "High assault activity (3 incidents)" |}]
  /\ identifyHighRiskAreas three_assaults [(1, 1)] <> [].
Proof.
  repeat split; try (vm_compute; reflexivity); vm_compute; discriminate.
Qed.

End RiskFacts.

(** ** Adding an incident on the route *)

Module MonotoneFacts.
Import JS Density Scorer Spec Samples DensityFacts StrideFacts ScorerFacts.

(** A record located at the query point is within the default radius. *)
Lemma contribution_at_point (crime : CrimeData) (p : coord) (la lo : Q) :
  parseFloat (latitude crime) = Fin la -> la == fst p ->
  parseFloat (longitude crime) = Fin lo -> lo == snd p ->
  (1 <= contribution crime (fst p) (snd p) default_radius)%Z.
Proof.
  intros Hla Ela Hlo Elo.
  rewrite (finite_contribution crime la lo) by (assumption || discriminate).
  assert (E : Qle_bool ((la - fst p) * (la - fst p) + (lo - snd p) * (lo - snd p))
                (default_radius * default_radius) = true).
  { apply Qle_bool_iff. rewrite Ela, Elo. unfold default_radius. lra. }
  rewrite E. apply category_weight_pos.
Qed.

Section Added.
Variables (l1 l2 : list CrimeData) (crime : CrimeData).

Let before := l1 ++ l2.
Let after := l1 ++ crime :: l2.

Lemma densities_pointwise (points : list coord) :
  Forall2 (fun d d' => (d <= d')%Z) (densities before points) (densities after points).
Proof.
  induction points as [|c points IH]; simpl; constructor; [|exact IH].
  unfold after, before. rewrite density_add.
  pose proof (contribution_nonneg crime (fst c) (snd c) default_radius). lia.
Qed.

Lemma Zsum_pointwise (ds ds' : list Z) :
  Forall2 (fun d d' => (d <= d')%Z) ds ds' -> (Zsum ds <= Zsum ds')%Z.
Proof. induction 1; simpl; lia. Qed.

Lemma Zmax0_pointwise (ds ds' : list Z) :
  Forall2 (fun d d' => (d <= d')%Z) ds ds' -> (Zmax0 ds <= Zmax0 ds')%Z.
Proof. induction 1; simpl; lia. Qed.

Lemma Zsum_strict (points : list coord) (p : coord) :
  In p points ->
  (1 <= contribution crime (fst p) (snd p) default_radius)%Z ->
  (Zsum (densities before points) + 1 <= Zsum (densities after points))%Z.
Proof.
  intros Hin Hp. induction points as [|c points IH]; [destruct Hin|].
  simpl. unfold after at 1, before at 1. rewrite density_add.
  destruct Hin as [-> | Hin].
  - pose proof (Zsum_pointwise _ _ (densities_pointwise points)). lia.
  - specialize (IH Hin).
    pose proof (contribution_nonneg crime (fst c) (snd c) default_radius). lia.
Qed.

End Added.

Lemma mean_lt (ds ds' : list Z) :
  length ds = length ds' -> ds <> [] ->
  (Zsum ds < Zsum ds')%Z -> mean ds < mean ds'.
Proof.
  intros Hlen Hne Hlt. unfold mean. rewrite <- Hlen. unfold Qdiv.
  apply Qmult_lt_compat_r.
  - apply Qinv_lt_0_compat. change 0 with (inject_Z 0). rewrite <- Zlt_Qlt.
    destruct ds; [congruence | simpl; lia].
  - rewrite <- Zlt_Qlt. exact Hlt.
Qed.

Lemma Zsum_le_max (ds : list Z) : (Zsum ds <= Z.of_nat (length ds) * Zmax0 ds)%Z.
Proof.
  induction ds as [|d ds IH]; [simpl; lia|].
  cbn [Zsum Zmax0 fold_right length]. fold (Zsum ds). fold (Zmax0 ds).
  pose proof (Zmax0_nonneg ds). nia.
Qed.

(** The mean of the densities is at most their maximum. *)
Lemma mean_le_max (ds : list Z) : ds <> [] -> mean ds <= inject_Z (Zmax0 ds).
Proof.
  intros Hne. unfold mean. apply Qle_shift_div_r.
  - change 0 with (inject_Z 0). rewrite <- Zlt_Qlt. destruct ds; [congruence | simpl; lia].
  - rewrite <- inject_Z_mult, <- Zle_Qle. pose proof (Zsum_le_max ds). lia.
Qed.

(** The raw score falls when the mean and the maximum rise, strictly while
    the mean is below its cap 450 = 1.5 * 300. *)
Lemma raw_score_antitone (a a' m m' : Q) :
  a <= a' -> m <= m' -> raw_score a' m' <= raw_score a m.
Proof.
  intros Ha Hm. unfold raw_score.
  pose proof (by_300 a'). pose proof (by_500 m').
  set (x' := a' / 300) in *. set (y' := m' / 500) in *. clearbody x' y'.
  destruct (Q.min_spec x' 1.5) as [[? E1] | [? E1]];
    destruct (Q.min_spec y' 1.5) as [[? E2] | [? E2]]; rewrite E1, E2;
    name_quotients a m; lra.
Qed.

Lemma raw_score_strict (a a' m m' : Q) :
  a < a' -> a < 450 -> m <= m' -> raw_score a' m' < raw_score a m.
Proof.
  intros Ha Hcap Hm. unfold raw_score.
  pose proof (by_300 a'). pose proof (by_500 m').
  set (x' := a' / 300) in *. set (y' := m' / 500) in *. clearbody x' y'.
  destruct (Q.min_spec x' 1.5) as [[? E1] | [? E1]];
    destruct (Q.min_spec y' 1.5) as [[? E2] | [? E2]]; rewrite E1, E2;
    name_quotients a m; lra.
Qed.

(** A capped mean leaves at most 90 - 30 - 22.5 = 37.5. *)
Lemma raw_score_capped (a m : Q) : 450 <= a -> a <= m -> raw_score a m <= 37.5.
Proof. intros Ha Hm. unfold raw_score. name_quotients a m; lra. Qed.

(** C9, as the code has it.  On a list that already has incidents, one more
    incident located at a sampled point of the route never raises the
    score, and lowers it as long as the mean sampled density is below 450,
    in particular whenever the score was above 37.5.  The score stays at
    or above 22.5. *)
Theorem added_incident_lowers_score (l1 l2 : list CrimeData) (crime : CrimeData)
    (coordinates : list coord) (p : coord) (la lo : Q) :
  l1 ++ l2 <> [] ->
  In p (samplePoints coordinates) ->
  parseFloat (latitude crime) = Fin la -> la == fst p ->
  parseFloat (longitude crime) = Fin lo -> lo == snd p ->
  let before := calculateRouteSafetyScore (l1 ++ l2) coordinates in
  let after := calculateRouteSafetyScore (l1 ++ crime :: l2) coordinates in
  after <= before
  /\ (mean (densities (l1 ++ l2) (samplePoints coordinates)) < 450 -> after < before)
  /\ (37.5 < before -> after < before)
  /\ 22.5 <= after.
Proof.
  intros Hne Hin Hla Ela Hlo Elo before after.
  assert (Hc : coordinates <> []) by (intros ->; destruct Hin).
  assert (Hne' : l1 ++ crime :: l2 <> []) by (destruct l1; discriminate).
  rewrite samplePoints_at_stride in *.
  set (points := at_stride 5 coordinates) in *.
  set (ds := densities (l1 ++ l2) points).
  set (ds' := densities (l1 ++ crime :: l2) points).
  assert (Eb : before == raw_score (mean ds) (inject_Z (Zmax0 ds)))
    by (apply score_is_raw; assumption).
  assert (Ea : after == raw_score (mean ds') (inject_Z (Zmax0 ds')))
    by (apply score_is_raw; assumption).
  assert (Hds : ds <> []) by (unfold ds, densities; destruct points; [destruct Hin | discriminate]).
  assert (Hsum : (Zsum ds + 1 <= Zsum ds')%Z).
  { apply (Zsum_strict l1 l2 crime points p Hin).
    apply (contribution_at_point crime p la lo); assumption. }
  assert (Hmean : mean ds < mean ds').
  { apply mean_lt; [unfold ds, ds', densities; rewrite !length_map; reflexivity
                   | exact Hds | lia]. }
  assert (Hmax : inject_Z (Zmax0 ds) <= inject_Z (Zmax0 ds')).
  { rewrite <- Zle_Qle. apply Zmax0_pointwise, densities_pointwise. }
  assert (Hstrict : mean ds < 450 -> after < before).
  { intros Hcap. rewrite Ea, Eb. apply raw_score_strict; assumption. }
  split; [rewrite Ea, Eb; apply raw_score_antitone; [lra | exact Hmax]|].
  split; [exact Hstrict|].
  split.
  - intros Hb. apply Hstrict.
    destruct (Qlt_le_dec (mean ds) 450) as [Hlt | Hge]; [exact Hlt|].
    pose proof (raw_score_capped _ _ Hge (mean_le_max ds Hds)). lra.
  - assert (Hpos : Forall (fun d => (0 <= d)%Z) ds') by apply densities_nonneg.
    assert (0 <= mean ds') by (apply mean_nonneg, Hpos).
    assert (0 <= inject_Z (Zmax0 ds')).
    { change 0 with (inject_Z 0). rewrite <- Zle_Qle. apply Zmax0_nonneg. }
    rewrite Ea. apply raw_score_bounds; assumption.
Qed.

Lemma added_incident_lowers_score_witness :
  let before := calculateRouteSafetyScore (thefts 2) [(1, 1); (2, 2)] in
  let after :=
    calculateRouteSafetyScore
      (thefts 1 ++ at_point (Some "Assault") None "1.0" "1" :: thefts 1) [(1, 1); (2, 2)] in
  after <= before /\ (37.5 < before -> after < before) /\ 22.5 <= after.
Proof.
  intros before after.
  destruct (added_incident_lowers_score (thefts 1) (thefts 1)
              (at_point (Some "Assault") None "1.0" "1") [(1, 1); (2, 2)] (1, 1)
              (10 # 10) 1) as (H1 & _ & H3 & H4).
  - discriminate.
  - left. reflexivity.
  - reflexivity.
  - reflexivity.
  - reflexivity.
  - reflexivity.
  - split; [exact H1 | split; [exact H3 | exact H4]].
Defined.

(** C9 fails in two ways.  On a list without incidents the route has the
    default score 85, and an assault added at its sampled point raises the
    score above 89.  On a list with 94 assaults at the sampled point both
    normalised terms are capped, the score is 22.5, and a further assault
    leaves it at 22.5, which is not the clamp at 0. *)
Lemma added_incident_may_not_lower_score :
  (calculateRouteSafetyScore [] [(0, 0)] == 85
   /\ 89 < calculateRouteSafetyScore (assaults 1) [(0, 0)])
  /\ (calculateRouteSafetyScore (assaults 94) [(0, 0)] == 22.5
      /\ calculateRouteSafetyScore (assaults 95) [(0, 0)] == 22.5
      /\ ~ calculateRouteSafetyScore (assaults 94) [(0, 0)] == 0).
Proof.
  repeat split; try (vm_compute; reflexivity); vm_compute; discriminate.
Qed.

End MonotoneFacts.

(** ** Route Selector *)

Module SelectorFacts.
Import JS Density Scorer Risk Selector Spec Samples.

Section SortHead.
Context {A : Type}.

Lemma head_insert (cmp : A -> A -> Q) (x : A) (l : list A) :
  head (JSArray.insert cmp x l)
  = Some match head l with
         | Some y => if ltb 0 (cmp x y) then y else x
         | None => x
         end.
Proof.
  destruct l as [|y l]; simpl; [reflexivity|].
  destruct (ltb 0 (cmp x y)); reflexivity.
Qed.

End SortHead.

Lemma ltb_true (a b : Q) : ltb a b = true <-> a < b.
Proof.
  unfold ltb. rewrite negb_true_iff. split.
  - intros E. destruct (Qlt_le_dec a b) as [H | H]; [exact H|].
    apply Qle_bool_iff in H. congruence.
  - intros H. destruct (Qle_bool b a) eqn:E; [|reflexivity].
    apply Qle_bool_iff in E. lra.
Qed.

Lemma ltb_false (a b : Q) : ltb a b = false <-> b <= a.
Proof.
  unfold ltb. rewrite negb_false_iff. apply Qle_bool_iff.
Qed.

(** Sorting the positions [i, i + n) puts in front the first position of
    the least key. *)
Lemma head_sort_seq (c : nat -> nat -> Q) (k : nat -> Q) (n i : nat) :
  (forall a b, (i <= a < i + S n)%nat -> (i <= b < i + S n)%nat -> c a b == k a - k b) ->
  exists m, head (JSArray.sort c (seq i (S n))) = Some m
    /\ (i <= m < i + S n)%nat
    /\ (forall j, (i <= j < i + S n)%nat -> k m <= k j)
    /\ (forall j, (i <= j < m)%nat -> k m < k j).
Proof.
  revert i. induction n as [|n IH]; intros i Hc.
  - exists i. simpl. repeat split; try lia.
    intros j Hj. replace j with i by lia. lra.
  - destruct (IH (S i)) as (m & Hm & Hrange & Hle & Hlt).
    { intros a b Ha Hb. apply Hc; lia. }
    change (seq i (S (S n))) with (i :: seq (S i) (S n)).
    cbn [JSArray.sort]. rewrite head_insert, Hm.
    destruct (ltb 0 (c i m)) eqn:E.
    + apply ltb_true in E. rewrite (Hc i m) in E by lia.
      exists m. repeat split; try lia.
      * intros j Hj. destruct (Nat.eq_dec j i) as [-> | Hne]; [lra|]. apply Hle. lia.
      * intros j Hj. destruct (Nat.eq_dec j i) as [-> | Hne]; [lra|]. apply Hlt. lia.
    + apply ltb_false in E. rewrite (Hc i m) in E by lia.
      exists i. repeat split; try lia.
      intros j Hj. destruct (Nat.eq_dec j i) as [-> | Hne]; [lra|].
      assert (k m <= k j) by (apply Hle; lia). lra.
Qed.

(** The first reference of a sorted copy points to the first route of the
    least key, when the comparator is the difference of the keys. *)
Lemma head_sorted_copy (cmp : Route -> Route -> Q) (key : Route -> Q) (st : store) :
  (forall x y, cmp x y == key x - key y) ->
  st <> [] ->
  exists i, head (sorted_copy cmp st) = Some i /\ first_least (map key st) i.
Proof.
  intros Hcmp Hne. unfold sorted_copy.
  destruct st as [|r0 st']; [congruence|]. set (st := r0 :: st') in *.
  change (length st) with (S (length st')).
  set (k := fun a : nat => match st !! a with Some x => key x | None => 0 end).
  destruct (head_sort_seq
              (fun a b => match st !! a, st !! b with
                          | Some x, Some y => cmp x y
                          | _, _ => 0
                          end) k (length st') 0%nat) as (m & Hm & Hrange & Hle & Hlt).
  { intros a b Ha Hb. unfold k.
    destruct (lookup_lt_is_Some_2 st a) as [x Hx]; [simpl; lia|].
    destruct (lookup_lt_is_Some_2 st b) as [y Hy]; [simpl; lia|].
    rewrite Hx, Hy. apply Hcmp. }
  exists m. split; [exact Hm|].
  destruct (lookup_lt_is_Some_2 st m) as [x Hx]; [simpl; lia|].
  exists (key x). split; [rewrite list_lookup_fmap, Hx; reflexivity|].
  assert (Hk : forall j r, st !! j = Some r -> k j = key r /\ (j < S (length st'))%nat).
  { intros j r Hj. unfold k. rewrite Hj. split; [reflexivity|].
    apply lookup_lt_Some in Hj. exact Hj. }
  destruct (Hk m x Hx) as [Em _].
  split.
  - intros j k' Hj. rewrite list_lookup_fmap in Hj.
    destruct (st !! j) as [r|] eqn:Ej; [|discriminate]. injection Hj as <-.
    destruct (Hk j r Ej) as [<- Hlen]. rewrite <- Em. apply Hle. lia.
  - intros j k' Hjm Hj. rewrite list_lookup_fmap in Hj.
    destruct (st !! j) as [r|] eqn:Ej; [|discriminate]. injection Hj as <-.
    destruct (Hk j r Ej) as [<- Hlen]. rewrite <- Em. apply Hlt. lia.
Qed.

(** The test of STEP 4 reads distance and duration only. *)
Lemma differ_same_route (st : store) (a b : ref) (x y : Route) :
  st !! a = Some x -> st !! b = Some y -> differ st a b = negb (same_route x y).
Proof.
  intros Ha Hb. unfold differ, same_route. rewrite Ha, Hb.
  destruct (JS.eqb (distance_meters x) (distance_meters y)),
    (JS.eqb (duration_seconds x) (duration_seconds y)); reflexivity.
Qed.

Lemma same_route_refl (x : Route) : same_route x x = true.
Proof. unfold same_route, JS.eqb. rewrite !Qeq_bool_refl. reflexivity. Qed.

Lemma type_labelled role title i r : type (labelled role title i r) = role.
Proof. reflexivity. Qed.

(** Runs the [find]s of the default choice once the final store is known
    at the references. *)
Ltac run_finds H :=
  unfold has_type; cbn [List.find mapM]; rewrite ?H, ?type_labelled;
  cbn -[labelled]; rewrite ?H; cbn -[labelled].

(** STEP 4 from its two picks.  The fastest and the safest may be one
    object: the writes to the one are then seen through the other. *)
Lemma select_result (st0 : store) (f s : ref) (F S : Route) :
  st0 !! f = Some F -> st0 !! s = Some S ->
  head (sorted_copy by_duration st0) = Some f ->
  head (sorted_copy by_safety
          (alter (set_name "⚡ Fastest Route") f (alter (set_type "fastest") f st0)))
  = Some s ->
  select st0
  = Some (if same_route F S
          then {| finalRoutes := [labelled "fastest_safest" "⚡ Fastest & 🛡️ Safest" 0 F];
                  defaultRoute := labelled "fastest_safest" "⚡ Fastest & 🛡️ Safest" 0 F |}
          else {| finalRoutes := [labelled "fastest" "⚡ Fastest Route" 0 F;
                                  labelled "safest" "🛡️ Safest Route" 1 S];
                  defaultRoute := labelled "safest" "🛡️ Safest Route" 1 S |}).
Proof.
  intros HF HS Hf Hs. unfold select. rewrite Hf. cbn [mbind option_bind].
  rewrite Hs. cbn [mbind option_bind].
  set (st4 := alter _ s (alter _ s (alter _ f (alter _ f st0)))).
  destruct (decide (f = s)) as [<- | Hne].
  - assert (F = S) by congruence. subst S.
    assert (H4 : st4 !! f = Some (set_name "🛡️ Safest Route" (set_type "safest"
                  (set_name "⚡ Fastest Route" (set_type "fastest" F))))).
    { unfold st4. rewrite !list_lookup_alter_eq, HF. reflexivity. }
    rewrite (differ_same_route st4 f f _ _ H4 H4), !same_route_refl. cbn [negb].
    unfold JSArray.forEach, JSArray.forEach_from, JSArray.find.
    set (st6 := alter _ f (alter _ f (alter _ f st4))).
    assert (H6 : st6 !! f = Some (labelled "fastest_safest" "⚡ Fastest & 🛡️ Safest" 0 F)).
    { unfold st6. rewrite !list_lookup_alter_eq, H4. destruct F; reflexivity. }
    run_finds H6. reflexivity.
  - assert (H4f : st4 !! f = Some (set_name "⚡ Fastest Route" (set_type "fastest" F))).
    { unfold st4. rewrite !list_lookup_alter_ne by congruence.
      rewrite !list_lookup_alter_eq, HF. reflexivity. }
    assert (H4s : st4 !! s = Some (set_name "🛡️ Safest Route" (set_type "safest" S))).
    { unfold st4. rewrite !list_lookup_alter_eq.
      rewrite !list_lookup_alter_ne by congruence. rewrite HS. reflexivity. }
    rewrite (differ_same_route st4 f s _ _ H4f H4s).
    change (same_route (set_name "⚡ Fastest Route" (set_type "fastest" F))
              (set_name "🛡️ Safest Route" (set_type "safest" S)))
      with (same_route F S).
    destruct (same_route F S); cbn [negb].
    + unfold JSArray.forEach, JSArray.forEach_from, JSArray.find.
      set (st6 := alter _ f (alter _ f (alter _ f st4))).
      assert (H6 : st6 !! f = Some (labelled "fastest_safest" "⚡ Fastest & 🛡️ Safest" 0 F)).
      { unfold st6. rewrite !list_lookup_alter_eq, H4f. destruct F; reflexivity. }
      run_finds H6. reflexivity.
    + unfold JSArray.forEach, JSArray.forEach_from, JSArray.find.
      set (st6 := alter _ s (alter _ f st4)).
      assert (H6f : st6 !! f = Some (labelled "fastest" "⚡ Fastest Route" 0 F)).
      { unfold st6. rewrite list_lookup_alter_ne by congruence.
        rewrite list_lookup_alter_eq, H4f. destruct F; reflexivity. }
      assert (H6s : st6 !! s = Some (labelled "safest" "🛡️ Safest Route" 1 S)).
      { unfold st6. rewrite list_lookup_alter_eq.
        rewrite list_lookup_alter_ne by congruence. rewrite H4s. destruct S; reflexivity. }
      unfold has_type; cbn [List.find mapM]. rewrite ?H6f, ?H6s, ?type_labelled.
      cbn -[labelled]. rewrite ?H6s. reflexivity.
Qed.

Lemma first_least_neg (g : Route -> Q) (l : list Route) (i : nat) :
  first_least (map (fun r => - g r) l) i -> first_greatest (map g l) i.
Proof.
  intros (k & Hk & Hle & Hlt).
  rewrite list_lookup_fmap in Hk.
  destruct (l !! i) as [r|] eqn:Er; [|discriminate]. injection Hk as <-.
  exists (g r). split; [rewrite list_lookup_fmap, Er; reflexivity|].
  split.
  - intros j k' Hj. rewrite list_lookup_fmap in Hj.
    destruct (l !! j) as [r'|] eqn:Ej; [|discriminate]. injection Hj as <-.
    assert (- g r <= - g r') by (apply (Hle j); rewrite list_lookup_fmap, Ej; reflexivity).
    lra.
  - intros j k' Hji Hj. rewrite list_lookup_fmap in Hj.
    destruct (l !! j) as [r'|] eqn:Ej; [|discriminate]. injection Hj as <-.
    assert (- g r < - g r') by (apply (Hlt j); [exact Hji | rewrite list_lookup_fmap, Ej; reflexivity]).
    lra.
Qed.

Lemma processed_durations crimeData (routesData : list RouteData) :
  map duration_seconds (processedRoutes crimeData routesData) = map duration routesData.
Proof.
  apply list_eq. intros i. unfold processedRoutes.
  rewrite !list_lookup_fmap, list_lookup_imap.
  destruct (routesData !! i); reflexivity.
Qed.

Lemma alter_keeps_keys {K : Type} (key : Route -> K) (g : Route -> Route) (st : store) (i : nat) :
  (forall r, key (g r) = key r) -> map key (alter g i st) = map key st.
Proof.
  intros H. change (key <$> alter g i st = key <$> st).
  rewrite (list_fmap_alter key g id).
  - apply list_alter_id. reflexivity.
  - apply Forall_forall. intros r _. apply H.
Qed.

(** The two picks of STEP 4: the heads of the two sorted copies. *)
Lemma picks crimeData (routesData : list RouteData) :
  routesData <> [] ->
  let processed := processedRoutes crimeData routesData in
  exists (f s : nat) (F S : Route),
    processed !! f = Some F /\ processed !! s = Some S
    /\ head (sorted_copy by_duration processed) = Some f
    /\ head (sorted_copy by_safety
               (alter (set_name "⚡ Fastest Route") f
                  (alter (set_type "fastest") f processed))) = Some s
    /\ first_least (map duration routesData) f
    /\ first_greatest (map (fun r => inject_Z (safetyScore r)) processed) s.
Proof.
  intros Hne processed.
  assert (Hp : processed <> []).
  { intros E. apply (f_equal length) in E. unfold processed, processedRoutes in E.
    rewrite length_imap in E. destruct routesData; [congruence | discriminate]. }
  destruct (head_sorted_copy by_duration duration_seconds processed) as (f & Hf & Hfast);
    [intros x y; reflexivity | exact Hp |].
  set (st2 := alter (set_name "⚡ Fastest Route") f (alter (set_type "fastest") f processed)).
  assert (Hp2 : st2 <> []).
  { intros E. apply (f_equal length) in E. unfold st2 in E.
    rewrite !length_alter in E. destruct processed; [congruence | discriminate]. }
  destruct (head_sorted_copy by_safety (fun r => - inject_Z (safetyScore r)) st2)
    as (s & Hs & Hsafe); [intros x y; unfold by_safety; lra | exact Hp2 |].
  assert (E2 : map (fun r => - inject_Z (safetyScore r)) st2
               = map (fun r => - inject_Z (safetyScore r)) processed).
  { unfold st2. rewrite !alter_keeps_keys by reflexivity. reflexivity. }
  rewrite E2 in Hsafe. apply (first_least_neg (fun r => inject_Z (safetyScore r))) in Hsafe.
  assert (HF : exists F, processed !! f = Some F).
  { destruct Hfast as (kf & Hkf & _). rewrite list_lookup_fmap in Hkf.
    destruct (processed !! f); [eauto | discriminate]. }
  destruct HF as [F HF].
  assert (HS : exists S, processed !! s = Some S).
  { destruct Hsafe as (ks & Hks & _). rewrite list_lookup_fmap in Hks.
    destruct (processed !! s); [eauto | discriminate]. }
  destruct HS as [S HS].
  exists f, s, F, S. repeat split; try assumption.
  rewrite <- (processed_durations crimeData). exact Hfast.
Qed.

(** C3.  From a pool with candidates the selector takes as fastest the
    first candidate of least duration and as safest the first candidate of
    greatest [safetyScore] (the rounded score that the processed route
    carries).  When the two have the same distance and the same duration it
    emits the fastest alone, with role fastest_safest; otherwise it emits
    the fastest and then the safest, with their roles.  The entries are
    indexed 0, 1, ... in that order, and the route displayed first is the
    entry of role safest, else fastest_safest, else fastest, else the first
    entry. *)
Theorem selector_picks_fastest_and_safest crimeData (routesData : list RouteData) :
  routesData <> [] ->
  let processed := processedRoutes crimeData routesData in
  exists (f s : nat) (F S : Route) (sel : selection),
    calculateRoute crimeData routesData = Some sel
    /\ processed !! f = Some F /\ processed !! s = Some S
    /\ first_least (map duration routesData) f
    /\ first_greatest (map (fun r => inject_Z (safetyScore r)) processed) s
    /\ finalRoutes sel
       = (if same_route F S
          then [labelled "fastest_safest" "⚡ Fastest & 🛡️ Safest" 0 F]
          else [labelled "fastest" "⚡ Fastest Route" 0 F;
                labelled "safest" "🛡️ Safest Route" 1 S])
    /\ map index (finalRoutes sel) = seq 0 (length (finalRoutes sel))
    /\ default_of (finalRoutes sel) = Some (defaultRoute sel)
    /\ defaultRoute sel
       = (if same_route F S
          then labelled "fastest_safest" "⚡ Fastest & 🛡️ Safest" 0 F
          else labelled "safest" "🛡️ Safest Route" 1 S).
Proof.
  intros Hne processed.
  destruct (picks crimeData routesData Hne) as (f & s & F & S & HF & HS & Hf & Hs & Hfast & Hsafe).
  pose proof (select_result _ f s F S HF HS Hf Hs) as Hsel.
  exists f, s, F, S. eexists. split.
  { unfold calculateRoute. destruct routesData; [congruence|]. exact Hsel. }
  split; [exact HF|]. split; [exact HS|].
  split; [exact Hfast|]. split; [exact Hsafe|].
  destruct (same_route F S); cbn -[labelled]; rewrite ?type_labelled; cbn -[labelled];
    repeat split; reflexivity.
Qed.

Lemma selector_picks_fastest_and_safest_witness :
  exists (f s : nat) (sel : selection),
    calculateRoute three_assaults [route_B; route_A] = Some sel
    /\ first_least [800; 500] f
    /\ map index (finalRoutes sel) = seq 0 (length (finalRoutes sel))
    /\ default_of (finalRoutes sel) = Some (defaultRoute sel).
Proof.
  destruct (selector_picks_fastest_and_safest three_assaults [route_B; route_A])
    as (f & s & F & S & sel & H1 & _ & _ & H4 & _ & _ & H7 & H8 & _);
    [discriminate|].
  exists f, s, sel. split; [exact H1 | split; [exact H4 | split; [exact H7 | exact H8]]].
Defined.

(** Every route handed over is a processed alternative with a role, a
    title and an index put on it. *)
Lemma final_routes_are_processed crimeData (routesData : list RouteData)
    (sel : selection) (r : Route) :
  calculateRoute crimeData routesData = Some sel ->
  In r (finalRoutes sel) ->
  exists role title j route i,
    routesData !! i = Some route
    /\ r = labelled role title j (process crimeData route i).
Proof.
  intros Hsel Hin.
  assert (Hne : routesData <> []) by (intros ->; discriminate Hsel).
  destruct (picks crimeData routesData Hne) as (f & s & F & S & HF & HS & Hf & Hs & _).
  pose proof (select_result _ f s F S HF HS Hf Hs) as H1.
  unfold calculateRoute in Hsel. destruct routesData as [|r0 rest]; [congruence|].
  cbn [length Nat.eqb] in Hsel. rewrite Hsel in H1. injection H1 as ->.
  unfold processedRoutes in HF, HS. rewrite list_lookup_imap in HF, HS.
  destruct ((r0 :: rest) !! f) as [rf|] eqn:Ef; [|discriminate]. injection HF as <-.
  destruct ((r0 :: rest) !! s) as [rs|] eqn:Es; [|discriminate]. injection HS as <-.
  destruct (same_route _ _); simpl in Hin.
  - destruct Hin as [<- | []]. eauto 10.
  - destruct Hin as [<- | [<- | []]]; eauto 10.
Qed.

Lemma Qle_bool_false (a b : Q) : Qle_bool a b = false -> b < a.
Proof.
  intros E. destruct (Qlt_le_dec b a) as [H | H]; [exact H|].
  apply Qle_bool_iff in H. congruence.
Qed.

(** A higher score never has a lower grade. *)
Lemma grade_monotone (s1 s2 : Q) :
  s1 <= s2 -> (grade_rank (getSafetyGrade s1) <= grade_rank (getSafetyGrade s2))%nat.
Proof.
  intros H. unfold getSafetyGrade.
  repeat match goal with
         | |- context [Qle_bool ?a ?b] =>
             let E := fresh "E" in
             destruct (Qle_bool a b) eqn:E;
             [apply Qle_bool_iff in E | apply Qle_bool_false in E]
         end;
    try (exfalso; lra); vm_compute; lia.
Qed.

(** C8, as the code has it.  The grade of a route handed over is the
    threshold function of the score that the Route Scorer returned for its
    polyline, and the [safetyScore] it carries is that score rounded to the
    nearest integer.  The threshold function is monotone, and sends 90 to A,
    89.9 to B, 60 to D and 59.9 to F. *)
Theorem grade_follows_unrounded_score crimeData (routesData : list RouteData)
    (sel : selection) (r : Route) :
  calculateRoute crimeData routesData = Some sel ->
  In r (finalRoutes sel) ->
  let score := calculateRouteSafetyScore crimeData (coordinates r) in
  safetyGrade r = getSafetyGrade score
  /\ safetyScore r = Math_round score
  /\ (forall s1 s2 : Q,
        s1 <= s2 ->
        (grade_rank (getSafetyGrade s1) <= grade_rank (getSafetyGrade s2))%nat)
  /\ map getSafetyGrade [90; 89.9; 80; 70; 60; 59.9] = ["A"; "B"; "B"; "C"; "D"; "F"].
Proof.
  intros Hsel Hin score.
  destruct (final_routes_are_processed _ _ _ _ Hsel Hin)
    as (role & title & j & route & i & _ & ->).
  split; [reflexivity|]. split; [reflexivity|].
  split; [exact grade_monotone | reflexivity].
Qed.

Lemma grade_follows_unrounded_score_witness :
  let r := labelled "fastest_safest" "⚡ Fastest & 🛡️ Safest" 0
             (process one_fraud route_A 0) in
  calculateRoute one_fraud [route_A] = Some {| finalRoutes := [r]; defaultRoute := r |}
  /\ safetyGrade r = getSafetyGrade (calculateRouteSafetyScore one_fraud (coordinates r))
  /\ safetyScore r = Math_round (calculateRouteSafetyScore one_fraud (coordinates r)).
Proof.
  intros r.
  assert (Hsel : calculateRoute one_fraud [route_A]
                 = Some {| finalRoutes := [r]; defaultRoute := r |})
    by (vm_compute; reflexivity).
  destruct (grade_follows_unrounded_score one_fraud [route_A] _ r Hsel)
    as (H1 & H2 & _); [left; reflexivity|].
  split; [exact Hsel | split; [exact H1 | exact H2]].
Defined.

(** C8 fails on the [safetyScore] that the route carries.  With one fraud
    report at the point (0, 0), the route through that point scores 89.65:
    it is handed over with [safetyScore] 90 and grade B, next to the route
    through (1, 1) with [safetyScore] 90 and grade A. *)
Lemma rounded_score_disagrees_with_grade :
  calculateRouteSafetyScore one_fraud [(0, 0); (0, 0)] == 89.65
  /\ exists sel,
       calculateRoute one_fraud [route_B; route_A] = Some sel
       /\ map safetyScore (finalRoutes sel) = [90; 90]%Z
       /\ map safetyGrade (finalRoutes sel) = ["B"; "A"]
       /\ map (fun r => getSafetyGrade (inject_Z (safetyScore r))) (finalRoutes sel)
          = ["A"; "A"].
Proof.
  split; [vm_compute; reflexivity|].
  eexists. split; [vm_compute; reflexivity|].
  repeat split; vm_compute; reflexivity.
Qed.

End SelectorFacts.

(** ** Tallies *)

Module TallyFacts.
Import JS Density Scorer Risk Reference.

Lemma bump_count (acc : list (string * nat)) (key k : string) :
  tally_count (bump acc key) k
  = if String.eqb key k then S (tally_count acc k) else tally_count acc k.
Proof.
  unfold tally_count. induction acc as [|[k0 n] acc IH]; simpl.
  - destruct (String.eqb key k); reflexivity.
  - destruct (String.eqb k0 key) eqn:E0; simpl.
    + apply String.eqb_eq in E0. subst k0.
      destruct (String.eqb key k); reflexivity.
    + destruct (String.eqb k0 k) eqn:E1; simpl; [|exact IH].
      apply String.eqb_eq in E1. subst k0.
      rewrite String.eqb_sym, E0. reflexivity.
Qed.

Lemma bump_total (acc : list (string * nat)) (key : string) :
  list_sum (map snd (bump acc key)) = S (list_sum (map snd acc)).
Proof.
  induction acc as [|[k0 n] acc IH]; simpl; [reflexivity|].
  destruct (String.eqb k0 key); simpl; [reflexivity|]. rewrite IH. lia.
Qed.

Lemma bump_keys (acc : list (string * nat)) (key k : string) :
  In k (map fst (bump acc key)) <-> k = key \/ In k (map fst acc).
Proof.
  induction acc as [|[k0 n] acc IH]; simpl; [intuition congruence|].
  destruct (String.eqb k0 key) eqn:E0; simpl.
  - apply String.eqb_eq in E0. subst k0. intuition congruence.
  - rewrite IH. intuition congruence.
Qed.

Lemma bump_NoDup (acc : list (string * nat)) (key : string) :
  List.NoDup (map fst acc) -> List.NoDup (map fst (bump acc key)).
Proof.
  induction acc as [|[k0 n] acc IH]; simpl; intros H.
  - constructor; [intros []|constructor].
  - inversion H as [|? ? Hnot Hrest]; subst.
    destruct (String.eqb k0 key) eqn:E0; simpl.
    + constructor; assumption.
    + constructor; [|apply IH, Hrest].
      rewrite bump_keys. intros [-> | Hin]; [|exact (Hnot Hin)].
      rewrite String.eqb_refl in E0. discriminate.
Qed.

Lemma bump_positive (acc : list (string * nat)) (key : string) :
  Forall (fun e => (1 <= snd e)%nat) acc ->
  Forall (fun e => (1 <= snd e)%nat) (bump acc key).
Proof.
  induction 1 as [|[k0 n] acc Hn H IH]; simpl.
  - constructor; [simpl; lia | constructor].
  - destruct (String.eqb k0 key); constructor; simpl in *; try lia; assumption.
Qed.

(** The tally of a list of keys, from the empty tally. *)
Lemma tally_spec (keys : list string) :
  let t := fold_left bump keys [] in
  (forall k, tally_count t k = occurrences k keys)
  /\ list_sum (map snd t) = length keys
  /\ List.NoDup (map fst t)
  /\ Forall (fun e => (1 <= snd e)%nat) t.
Proof.
  induction keys as [|key keys IH] using rev_ind; simpl.
  - repeat split; try constructor.
  - rewrite fold_left_app. simpl. destruct IH as (Hc & Hs & Hn & Hp).
    split; [|split; [|split]].
    + intros k. rewrite bump_count, Hc. unfold occurrences.
      rewrite List.filter_app, length_app. cbn [List.filter].
      rewrite (String.eqb_sym k key). destruct (String.eqb key k); simpl; lia.
    + rewrite bump_total, Hs, length_app. simpl. lia.
    + apply bump_NoDup, Hn.
    + apply bump_positive, Hp.
Qed.

Lemma tally_count_In (t : list (string * nat)) (k : string) (n : nat) :
  List.NoDup (map fst t) -> In (k, n) t -> tally_count t k = n.
Proof.
  unfold tally_count. induction t as [|[k0 m] t IH]; simpl; intros Hn Hin; [destruct Hin|].
  inversion Hn as [|? ? Hnot Hrest]; subst.
  destruct Hin as [E | Hin].
  - injection E as -> ->. rewrite String.eqb_refl. reflexivity.
  - destruct (String.eqb k0 k) eqn:E0; [|apply IH; assumption].
    apply String.eqb_eq in E0. subst k0. exfalso. apply Hnot.
    apply (in_map fst) in Hin. exact Hin.
Qed.

Lemma In_tally_count (t : list (string * nat)) (k : string) :
  (1 <= tally_count t k)%nat -> In (k, tally_count t k) t.
Proof.
  unfold tally_count. induction t as [|[k0 m] t IH]; simpl; intros H; [lia|].
  destruct (String.eqb k0 k) eqn:E0; simpl in *.
  - apply String.eqb_eq in E0. subst k0. left. reflexivity.
  - right. apply IH, H.
Qed.

(** An entry of the tally is a key with its number of occurrences, at
    least one. *)
Lemma tally_entries (keys : list string) (k : string) (n : nat) :
  In (k, n) (fold_left bump keys []) <-> n = occurrences k keys /\ (1 <= n)%nat.
Proof.
  destruct (tally_spec keys) as (Hc & _ & Hn & Hp). split.
  - intros Hin. split.
    + rewrite <- Hc. symmetry. apply tally_count_In; assumption.
    + rewrite List.Forall_forall in Hp. apply (Hp (k, n) Hin).
  - intros [-> H]. rewrite <- Hc in *. apply In_tally_count, H.
Qed.

End TallyFacts.

(** ** Crime statistics of a route *)

Module StatsFacts.
Import JS Density Scorer Risk Stats Spec Reference Samples.
Import DensityFacts StrideFacts ScorerFacts RiskFacts TallyFacts.

Lemma reduce_keys (crimes : list CrimeData) (acc : list (string * nat)) :
  fold_left (fun acc crime => bump acc (crime_key crime)) crimes acc
  = fold_left bump (map crime_key crimes) acc.
Proof.
  revert acc. induction crimes as [|c crimes IH]; intros acc; simpl; [reflexivity|].
  apply IH.
Qed.

(** The two incident figures of the statistics, with or without records. *)
Lemma stats_incidents (crimeData : list CrimeData) (coordinates : list coord) :
  let routeCrimes := List.filter (in_corridor coordinates) crimeData in
  total_incidents (calculateCrimeStats crimeData coordinates) = length routeCrimes
  /\ crime_types (calculateCrimeStats crimeData coordinates)
     = fold_left bump (map crime_key routeCrimes) [].
Proof.
  unfold calculateCrimeStats. destruct crimeData as [|c crimeData]; [split; reflexivity|].
  cbn [length Nat.eqb total_incidents crime_types]. unfold JSArray.reduce.
  rewrite reduce_keys. split; reflexivity.
Qed.

(** X1.  The statistics count each incident of the corridor once: the
    counts of [crime_types] add up to [total_incidents], every key is
    listed once, with the number of corridor incidents that carry it, and
    [total_incidents] is at most the number of records. *)
Theorem crime_types_add_up (crimeData : list CrimeData) (coordinates : list coord) :
  let stats := calculateCrimeStats crimeData coordinates in
  let routeKeys := map crime_key (List.filter (in_corridor coordinates) crimeData) in
  list_sum (map snd (crime_types stats)) = total_incidents stats
  /\ List.NoDup (map fst (crime_types stats))
  /\ (forall k n, In (k, n) (crime_types stats)
                  <-> n = occurrences k routeKeys /\ (1 <= n)%nat)
  /\ (total_incidents stats <= length crimeData)%nat.
Proof.
  intros stats routeKeys.
  destruct (stats_incidents crimeData coordinates) as [Ht Hc].
  fold stats in Ht, Hc. fold routeKeys in Hc.
  destruct (tally_spec routeKeys) as (_ & Hs & Hn & _).
  rewrite Hc, Ht. split; [|split; [|split]].
  - rewrite Hs. unfold routeKeys. apply length_map.
  - exact Hn.
  - intros k n. apply tally_entries.
  - apply List.filter_length_le.
Qed.

Lemma hot_segments crimeData (points : list coord) :
  length (omap (segment_at crimeData) points)
  = length (List.filter
              (fun c : coord =>
                 (15 <? calculateCrimeDensity crimeData (fst c) (snd c) default_radius)%Z)
              points).
Proof.
  induction points as [|c points IH]; [reflexivity|].
  cbn [omap list_omap List.filter]. fold (omap (segment_at crimeData) points).
  unfold segment_at at 1. cbv zeta. rewrite (Z.leb_antisym 15).
  destruct (15 <? calculateCrimeDensity crimeData (fst c) (snd c) default_radius)%Z;
    simpl; rewrite IH; reflexivity.
Qed.

Lemma filter_sampled_le {A : Type} (p : A -> bool) (q : nat -> bool) (l : list A) (i : nat) :
  (length (List.filter p (JSArray.filter_from (fun _ j => q j) i l))
   <= length (List.filter p l))%nat.
Proof.
  revert i. induction l as [|x l IH]; intros i; simpl; [lia|].
  specialize (IH (S i)). destruct (q i); simpl; destruct (p x); simpl; lia.
Qed.

(** X2.  The locator never reports more segments than the statistics
    count high-risk points: it looks at every tenth point, the statistics
    at all of them, with the same density and the same threshold. *)
Theorem segments_within_high_risk_areas (crimeData : list CrimeData)
    (coordinates : list coord) :
  (length (identifyHighRiskAreas crimeData coordinates)
   <= high_risk_areas (calculateCrimeStats crimeData coordinates))%nat.
Proof.
  rewrite locator_scans_stride, hot_segments. unfold at_stride, stride_indices.
  rewrite <- (filter_indices (fun i => (i mod 10 =? 0)%nat) coordinates).
  unfold calculateCrimeStats. destruct crimeData as [|c crimeData].
  - cbn [length Nat.eqb high_risk_areas].
    assert (E : forall points : list coord,
               List.filter
                 (fun c : coord =>
                    (15 <? calculateCrimeDensity [] (fst c) (snd c) default_radius)%Z)
                 points = []).
    { induction points as [|c points IH]; [reflexivity | exact IH]. }
    rewrite E. simpl. lia.
  - cbn [length Nat.eqb high_risk_areas]. apply filter_sampled_le.
Qed.

Lemma unparsable_distance (crime : CrimeData) (lat lon : Q) :
  parseFloat (latitude crime) = NaN \/ parseFloat (longitude crime) = NaN ->
  radicand (distance_to crime lat lon) = NaN.
Proof.
  intros H. unfold distance_to, Math_sqrt, sub. simpl.
  destruct H as [-> | ->]; simpl; rewrite ?add_NaN_r; reflexivity.
Qed.

Lemma unparsable_not_in_corridor (crime : CrimeData) (coordinates : list coord) :
  parseFloat (latitude crime) = NaN \/ parseFloat (longitude crime) = NaN ->
  in_corridor coordinates crime = false.
Proof.
  intros H. unfold in_corridor.
  induction coordinates as [|c coordinates IH]; [reflexivity|].
  simpl. unfold root_lt. rewrite (unparsable_distance crime _ _ H). exact IH.
Qed.

(** X3.  A record whose latitude or longitude does not parse is never one
    of the incidents along a route: [total_incidents] and [crime_types]
    are the same with it and without it, while the density of every point
    counts it with the weight of its category. *)
Theorem unparsable_record_not_in_statistics (l1 l2 : list CrimeData)
    (crime : CrimeData) (coordinates : list coord) :
  parseFloat (latitude crime) = NaN \/ parseFloat (longitude crime) = NaN ->
  total_incidents (calculateCrimeStats (l1 ++ crime :: l2) coordinates)
  = total_incidents (calculateCrimeStats (l1 ++ l2) coordinates)
  /\ crime_types (calculateCrimeStats (l1 ++ crime :: l2) coordinates)
     = crime_types (calculateCrimeStats (l1 ++ l2) coordinates)
  /\ forall lat lon radius,
       calculateCrimeDensity (l1 ++ crime :: l2) lat lon radius
       = (calculateCrimeDensity (l1 ++ l2) lat lon radius
          + category_weight (toLowerCase (or_empty (incident_category crime))))%Z.
Proof.
  intros H.
  destruct (stats_incidents (l1 ++ crime :: l2) coordinates) as [Ht Hc].
  destruct (stats_incidents (l1 ++ l2) coordinates) as [Ht' Hc'].
  assert (E : List.filter (in_corridor coordinates) (l1 ++ crime :: l2)
              = List.filter (in_corridor coordinates) (l1 ++ l2)).
  { rewrite !List.filter_app. simpl.
    rewrite (unparsable_not_in_corridor crime coordinates H). reflexivity. }
  rewrite Ht, Hc, Ht', Hc', E. split; [reflexivity | split; [reflexivity|]].
  intros lat lon radius. rewrite density_add.
  rewrite (unparsable_not_skipped crime lat lon radius H). reflexivity.
Qed.

Lemma unparsable_record_not_in_statistics_witness :
  total_incidents (calculateCrimeStats (three_assaults ++ unlocated :: []) [(1, 1)])
  = total_incidents (calculateCrimeStats (three_assaults ++ []) [(1, 1)])
  /\ calculateCrimeDensity (three_assaults ++ unlocated :: []) 1 1 default_radius
     = (calculateCrimeDensity (three_assaults ++ []) 1 1 default_radius + 8)%Z.
Proof.
  destruct (unparsable_record_not_in_statistics three_assaults [] unlocated [(1, 1)])
    as (H1 & _ & H3); [left; reflexivity|].
  split; [exact H1 | exact (H3 1 1 default_radius)].
Defined.

End StatsFacts.

(** ** The description of a risk segment *)

Module DescriptionFacts.
Import JS Density Scorer Risk Spec Reference Samples.
Import DensityFacts StrideFacts ScorerFacts RiskFacts TallyFacts SelectorFacts.

(** The head of a sorted array is the first element of the least key, when
    the comparator is the difference of the keys. *)
Lemma head_sort_first_least {A : Type} (cmp : A -> A -> Q) (key : A -> Q) (l : list A) :
  (forall x y, cmp x y == key x - key y) ->
  match head (JSArray.sort cmp l) with
  | None => l = []
  | Some x =>
      exists i, l !! i = Some x
        /\ (forall j y, l !! j = Some y -> key x <= key y)
        /\ (forall j y, (j < i)%nat -> l !! j = Some y -> key x < key y)
  end.
Proof.
  intros Hcmp. induction l as [|a l IH]; [reflexivity|].
  cbn [JSArray.sort]. rewrite head_insert. cbn [head].
  destruct (head (JSArray.sort cmp l)) as [y|].
  - destruct IH as (i & Hi & Hle & Hlt).
    destruct (ltb 0 (cmp a y)) eqn:E.
    + apply ltb_true in E. rewrite Hcmp in E.
      exists (S i). split; [exact Hi|]. split.
      * intros [|j] z Hz; simpl in Hz; [injection Hz as <-; lra | exact (Hle j z Hz)].
      * intros [|j] z Hj Hz; simpl in Hz; [injection Hz as <-; lra|].
        apply (Hlt j z); [lia | exact Hz].
    + apply ltb_false in E. rewrite Hcmp in E.
      exists 0%nat. split; [reflexivity|]. split; [|intros j z Hj; lia].
      intros [|j] z Hz; simpl in Hz; [injection Hz as <-; lra|].
      specialize (Hle j z Hz). lra.
  - subst l. exists 0%nat. split; [reflexivity|]. split; [|intros j z Hj; lia].
    intros [|j] z Hz; simpl in Hz; [injection Hz as <-; lra | discriminate].
Qed.

Lemma tally_keys (keys : list string) (k : string) :
  In k (map fst (fold_left bump keys [])) <-> In k keys.
Proof.
  induction keys as [|key keys IH] using rev_ind; [reflexivity|].
  rewrite fold_left_app. simpl. rewrite bump_keys, IH, in_app_iff. simpl.
  intuition congruence.
Qed.

Lemma bump_position (acc : list (string * nat)) (key k : string) (n i : nat) :
  bump acc key !! i = Some (k, n) ->
  (exists m, acc !! i = Some (k, m)) \/ (i = length acc /\ k = key).
Proof.
  revert i. induction acc as [|[k0 m] acc IH]; intros i H; simpl in H.
  - destruct i as [|i]; [|destruct i; discriminate].
    injection H as <- <-. right. split; reflexivity.
  - destruct (String.eqb k0 key) eqn:E0.
    + destruct i as [|i]; simpl in *; [injection H as <- <-; left; eauto | left; eauto].
    + destruct i as [|i]; simpl in *; [left; eauto|].
      destruct (IH i H) as [Hold | [-> ->]]; [left; exact Hold | right; split; reflexivity].
Qed.

Lemma lookup_key_In {A B : Type} (l : list (A * B)) (i : nat) (a : A) (b : B) :
  l !! i = Some (a, b) -> In a (map fst l).
Proof.
  intros H. apply (in_map fst l (a, b)). apply list_elem_of_In.
  eapply list_elem_of_lookup_2. exact H.
Qed.

Lemma bump_length (acc : list (string * nat)) (key : string) :
  (length (bump acc key) <= S (length acc))%nat
  /\ (In key (map fst acc) -> length (bump acc key) = length acc).
Proof.
  induction acc as [|[k0 m] acc [IH1 IH2]]; simpl; [split; [lia | intros []]|].
  destruct (String.eqb k0 key) eqn:E0; simpl; [split; [lia | reflexivity]|].
  split; [lia|]. intros [-> | Hin]; [|rewrite IH2 by exact Hin; reflexivity].
  rewrite String.eqb_refl in E0. discriminate.
Qed.

(** The entries of a tally stand in the order in which their keys were
    first seen. *)
Lemma tally_order (keys : list string) (i j : nat) (k1 k2 : string) (n1 n2 : nat) :
  fold_left bump keys [] !! i = Some (k1, n1) ->
  fold_left bump keys [] !! j = Some (k2, n2) ->
  (i < j)%nat ->
  exists pre post, keys = pre ++ k1 :: post /\ ~ In k2 pre.
Proof.
  revert i j k1 k2 n1 n2.
  induction keys as [|key keys IH] using rev_ind; intros i j k1 k2 n1 n2 Hi Hj Hij.
  - destruct i; discriminate.
  - rewrite fold_left_app in Hi, Hj. simpl in Hi, Hj.
    destruct (bump_position _ _ _ _ _ Hi) as [[m1 Hi'] | [-> ->]].
    + destruct (bump_position _ _ _ _ _ Hj) as [[m2 Hj'] | [-> ->]].
      * destruct (IH _ _ _ _ _ _ Hi' Hj' Hij) as (pre & post & -> & Hnot).
        exists pre, (post ++ [key]). split; [|exact Hnot].
        rewrite <- app_assoc. reflexivity.
      * assert (Hk1 : In k1 keys) by (apply tally_keys; eapply lookup_key_In; exact Hi').
        assert (Hnew : ~ In key keys).
        { intros Hin. apply tally_keys in Hin.
          destruct (bump_length (fold_left bump keys []) key) as [_ Hlen].
          specialize (Hlen Hin). apply lookup_lt_Some in Hj. lia. }
        apply in_split in Hk1 as (pre & post & ->).
        exists pre, (post ++ [key]). split; [rewrite <- app_assoc; reflexivity|].
        intros Hin. apply Hnew. apply in_or_app. left. exact Hin.
    + apply lookup_lt_Some in Hj.
      destruct (bump_length (fold_left bump keys []) key) as [Hlen _]. lia.
Qed.

Lemma neg_count_le (a b : nat) :
  - inject_Z (Z.of_nat a) <= - inject_Z (Z.of_nat b) <-> (b <= a)%nat.
Proof. unfold Qle, Qopp, inject_Z. simpl. lia. Qed.

Lemma neg_count_lt (a b : nat) :
  - inject_Z (Z.of_nat a) < - inject_Z (Z.of_nat b) <-> (b < a)%nat.
Proof. unfold Qlt, Qopp, inject_Z. simpl. lia. Qed.

(** The most frequent key of a list of keys, as [topCrime] finds it. *)
Lemma top_of_tally (keys : list string) :
  match head (JSArray.sort
                (fun a b : string * nat =>
                   inject_Z (Z.of_nat (snd b)) - inject_Z (Z.of_nat (snd a)))
                (fold_left bump keys [])) with
  | Some (k, n) =>
      n = occurrences k keys /\ (1 <= n)%nat
      /\ (forall k', (occurrences k' keys <= n)%nat)
      /\ (forall k', k' <> k -> occurrences k' keys = n ->
                     exists pre post, keys = pre ++ k :: post /\ ~ In k' pre)
  | None => keys = []
  end.
Proof.
  pose proof (head_sort_first_least
                (fun a b : string * nat =>
                   inject_Z (Z.of_nat (snd b)) - inject_Z (Z.of_nat (snd a)))
                (fun e => - inject_Z (Z.of_nat (snd e)))
                (fold_left bump keys [])) as H.
  destruct (head _) as [[k n]|].
  - destruct H as (i & Hi & Hle & Hlt); [intros x y; lra|].
    assert (Hin : In (k, n) (fold_left bump keys [])).
    { apply list_elem_of_In. eapply list_elem_of_lookup_2. exact Hi. }
    apply tally_entries in Hin as [Hn Hpos].
    split; [exact Hn|]. split; [exact Hpos|].
    assert (Hentry : forall k', (1 <= occurrences k' keys)%nat ->
              exists j, fold_left bump keys [] !! j = Some (k', occurrences k' keys)).
    { intros k' Hk'.
      assert (Hin' : In (k', occurrences k' keys) (fold_left bump keys []))
        by (apply tally_entries; split; [reflexivity | exact Hk']).
      apply list_elem_of_In, list_elem_of_lookup_1 in Hin'. exact Hin'. }
    split.
    + intros k'. destruct (occurrences k' keys) as [|m] eqn:E; [lia|].
      destruct (Hentry k') as [j Hj]; [lia|]. rewrite E in Hj.
      specialize (Hle j _ Hj). simpl in Hle. apply neg_count_le in Hle. exact Hle.
    + intros k' Hne Htie.
      destruct (Hentry k') as [j Hj]; [lia|]. rewrite Htie in Hj.
      destruct (Nat.lt_trichotomy i j) as [Hij | [-> | Hji]].
      * exact (tally_order keys i j k k' n n Hi Hj Hij).
      * rewrite Hi in Hj. congruence.
      * specialize (Hlt j _ Hji Hj). simpl in Hlt. apply neg_count_lt in Hlt. lia.
  - specialize (H ltac:(intros x y; lra)).
    destruct (tally_spec keys) as (_ & Hs & _). rewrite H in Hs. simpl in Hs.
    destruct keys; [reflexivity | discriminate].
Qed.

(** X4.  The description of a segment names the key (category, else
    description) that the most incidents strictly within 0.005 degrees of
    its point carry, with that number of incidents; between keys of the
    same number the one seen first in the incident list wins.  The generic
    text is used exactly when no incident lies strictly within 0.005
    degrees. *)
Theorem description_names_most_frequent (crimeData : list CrimeData)
    (coordinates : list coord) (segment : RiskArea) :
  In segment (identifyHighRiskAreas crimeData coordinates) ->
  let c := (lat segment, lng segment) in
  let keys := map crime_key (nearbyIncidents crimeData c) in
  match topCrime crimeData c with
  | Some (k, n) =>
      description segment
      = ("High " ++ toLowerCase k ++ " activity (" ++ show_nat n ++ " incidents)")%string
      /\ n = occurrences k keys /\ (1 <= n)%nat
      /\ (forall k', (occurrences k' keys <= n)%nat)
      /\ (forall k', k' <> k -> occurrences k' keys = n ->
                     exists pre post, keys = pre ++ k :: post /\ ~ In k' pre)
  | None =>
      description segment = "High crime activity detected"
      /\ nearbyIncidents crimeData c = []
  end.
Proof.
  intros Hin c keys.
  rewrite locator_scans_stride in Hin.
  apply list_elem_of_In, list_elem_of_omap in Hin as (c0 & _ & Hseg).
  unfold segment_at in Hseg.
  destruct (calculateCrimeDensity crimeData (fst c0) (snd c0) default_radius <=? 15)%Z;
    [discriminate|].
  injection Hseg as <-. cbn [lat lng description] in *.
  assert (Ec : c = c0) by (unfold c; destruct c0; reflexivity).
  unfold keys. rewrite Ec. clear c keys Ec.
  pose proof (top_of_tally (map crime_key (nearbyIncidents crimeData c0))) as H.
  unfold topCrime, JSArray.reduce.
  destruct (head _) as [[k n]|].
  - split; [reflexivity | exact H].
  - split; [reflexivity|]. destruct (nearbyIncidents crimeData c0); [reflexivity | discriminate].
Qed.

Lemma description_names_most_frequent_witness :
  let segment :=
    {| lat := 1; lng := 1; risk := "medium";
       description := "High assault activity (3 incidents)" |} in
  match topCrime three_assaults (1, 1) with
  | Some (k, n) =>
      description segment
      = ("High " ++ toLowerCase k ++ " activity (" ++ show_nat n ++ " incidents)")%string
      /\ (forall k',
            (occurrences k' (map crime_key (nearbyIncidents three_assaults (1%Q, 1%Q)))
             <= n)%nat)
  | None => description segment = "High crime activity detected"
  end.
Proof.
  intros segment.
  pose proof (description_names_most_frequent three_assaults [(1, 1)] segment) as H.
  cbv zeta in H. change (lat segment, lng segment) with ((1, 1) : coord) in H.
  destruct (topCrime three_assaults (1, 1)) as [[k n]|].
  - destruct H as (H1 & _ & _ & H4 & _); [left; reflexivity|]. split; [exact H1 | exact H4].
  - destruct H as [H1 _]; [left; reflexivity | exact H1].
Defined.

End DescriptionFacts.

(** ** More on densities and scores *)

Module ScoringFacts.
Import JS Density Scorer Risk Selector Spec Reference Samples.
Import DensityFacts StrideFacts ScorerFacts RiskFacts MonotoneFacts.

Lemma score_without_points crimeData : calculateRouteSafetyScore crimeData [] = 85.
Proof. reflexivity. Qed.

Lemma score_without_incidents (coordinates : list coord) :
  calculateRouteSafetyScore [] coordinates = 85.
Proof.
  unfold calculateRouteSafetyScore. simpl.
  destruct (length coordinates =? 0)%nat; reflexivity.
Qed.

(** The score of any call, with or without data. *)
Lemma score_range crimeData (coordinates : list coord) :
  22.5 <= calculateRouteSafetyScore crimeData coordinates
  /\ calculateRouteSafetyScore crimeData coordinates <= 90.
Proof.
  destruct coordinates as [|c coordinates];
    [rewrite score_without_points; split; lra|].
  destruct crimeData as [|crime crimeData];
    [rewrite score_without_incidents; split; lra|].
  rewrite score_is_raw by discriminate.
  apply raw_score_bounds.
  - apply mean_nonneg, densities_nonneg.
  - change 0 with (inject_Z 0). rewrite <- Zle_Qle. apply Zmax0_nonneg.
Qed.

(** X5.  Whatever the polyline and the incidents, the score lies between
    22.5 and 90, and the rounded [safetyScore] that a processed route
    carries between 23 and 90: no route is shown with 100 or with 0. *)
Theorem carried_score_between_23_and_90 crimeData (route : RouteData) (i : nat)
    (coordinates : list coord) :
  (22.5 <= calculateRouteSafetyScore crimeData coordinates
   /\ calculateRouteSafetyScore crimeData coordinates <= 90)
  /\ (23 <= safetyScore (process crimeData route i) <= 90)%Z.
Proof.
  split; [apply score_range|].
  unfold process. cbn [safetyScore]. unfold Math_round.
  set (score := calculateRouteSafetyScore _ _).
  destruct (score_range crimeData
              (map (fun c : Q * Q => (snd c, fst c)) (geometry_coordinates route)))
    as [Hlo Hhi].
  fold score in Hlo, Hhi. split.
  - change 23%Z with (Qfloor 23). apply Qfloor_resp_le. lra.
  - change 90%Z with (Qfloor 90.5). apply Qfloor_resp_le. lra.
Qed.

Lemma square_le (r r' : Q) : 0 <= r -> r <= r' -> r * r <= r' * r'.
Proof. intros H0 H. apply Qmult_le_compat_nonneg; split; assumption. Qed.

Lemma root_gt_antitone (d : root) (r r' : Q) :
  r <= r' -> root_gt d r' = true -> root_gt d r = true.
Proof.
  intros Hr. unfold root_gt. destruct (radicand d) as [| s | x]; try (intros H; exact H).
  destruct (is_neg x); [intros H; exact H|].
  unfold is_neg. destruct (ltb r' 0) eqn:E'.
  - apply SelectorFacts.ltb_true in E'.
    assert (E : ltb r 0 = true) by (apply SelectorFacts.ltb_true; lra).
    rewrite E. reflexivity.
  - apply SelectorFacts.ltb_false in E'. intros H. apply SelectorFacts.ltb_true in H.
    destruct (ltb r 0) eqn:E; [reflexivity|]. apply SelectorFacts.ltb_false in E.
    apply SelectorFacts.ltb_true. pose proof (square_le r r' E Hr). lra.
Qed.

(** X6.  A wider radius never lowers the density of a point. *)
Theorem density_grows_with_radius crimeData (lat lon r r' : Q) :
  r <= r' ->
  (calculateCrimeDensity crimeData lat lon r
   <= calculateCrimeDensity crimeData lat lon r')%Z.
Proof.
  intros Hr. rewrite !density_sum.
  induction crimeData as [|crime crimeData IH]; simpl; [lia|].
  assert (contribution crime lat lon r <= contribution crime lat lon r')%Z; [|lia].
  unfold contribution.
  destruct (root_gt (distance_to crime lat lon) r') eqn:E'.
  - rewrite (root_gt_antitone _ r r' Hr E'). lia.
  - pose proof (category_weight_pos (toLowerCase (or_empty (incident_category crime)))).
    destruct (root_gt (distance_to crime lat lon) r); lia.
Qed.

Lemma density_grows_with_radius_witness :
  (calculateCrimeDensity three_assaults 1 1.004 0.001
   <= calculateCrimeDensity three_assaults 1 1.004 default_radius)%Z.
Proof. apply density_grows_with_radius. unfold default_radius. lra. Defined.

Lemma Zsum_Permutation (l l' : list Z) : Permutation l l' -> Zsum l = Zsum l'.
Proof. induction 1; simpl; lia. Qed.

Lemma density_Permutation (crimeData crimeData' : list CrimeData) lat lon radius :
  Permutation crimeData crimeData' ->
  calculateCrimeDensity crimeData lat lon radius
  = calculateCrimeDensity crimeData' lat lon radius.
Proof.
  intros H. rewrite !density_sum. apply Zsum_Permutation, Permutation_map, H.
Qed.

(** X7.  The order of the incident list plays no part in a density or in
    a score: both are the same on every rearrangement of the list. *)
Theorem incident_order_irrelevant (crimeData crimeData' : list CrimeData)
    (coordinates : list coord) :
  Permutation crimeData crimeData' ->
  (forall lat lon radius,
     calculateCrimeDensity crimeData lat lon radius
     = calculateCrimeDensity crimeData' lat lon radius)
  /\ calculateRouteSafetyScore crimeData coordinates
     = calculateRouteSafetyScore crimeData' coordinates.
Proof.
  intros H. split; [intros; apply density_Permutation, H|].
  unfold calculateRouteSafetyScore.
  rewrite (Permutation_length H), !accumulate_totals.
  assert (E : forall points, densities crimeData points = densities crimeData' points).
  { intros points. unfold densities. apply map_ext. intros c.
    apply density_Permutation, H. }
  rewrite E. reflexivity.
Qed.

Lemma incident_order_irrelevant_witness :
  calculateRouteSafetyScore (thefts 2 ++ three_assaults) [(1, 1)]
  = calculateRouteSafetyScore (three_assaults ++ thefts 2) [(1, 1)].
Proof.
  apply (incident_order_irrelevant (thefts 2 ++ three_assaults) (three_assaults ++ thefts 2)).
  apply Permutation_app_comm.
Defined.

(** X8.  On a list that has incidents, one more incident, wherever it
    lies and whatever its coordinates, never lowers a density and never
    raises the score of a route. *)
Theorem more_incidents_never_raise_score (l1 l2 : list CrimeData) (crime : CrimeData)
    (coordinates : list coord) :
  l1 ++ l2 <> [] ->
  (forall lat lon radius,
     (calculateCrimeDensity (l1 ++ l2) lat lon radius
      <= calculateCrimeDensity (l1 ++ crime :: l2) lat lon radius)%Z)
  /\ calculateRouteSafetyScore (l1 ++ crime :: l2) coordinates
     <= calculateRouteSafetyScore (l1 ++ l2) coordinates.
Proof.
  intros Hne. split.
  - intros lat lon radius. rewrite density_add.
    pose proof (contribution_nonneg crime lat lon radius). lia.
  - destruct coordinates as [|c coordinates]; [rewrite !score_without_points; lra|].
    assert (Hne' : l1 ++ crime :: l2 <> []) by (destruct l1; discriminate).
    rewrite !score_is_raw by (assumption || discriminate).
    set (points := at_stride 5 (c :: coordinates)).
    pose proof (densities_pointwise l1 l2 crime points) as Hpt.
    assert (Hlen : length (densities (l1 ++ l2) points)
                   = length (densities (l1 ++ crime :: l2) points))
      by (unfold densities; rewrite !length_map; reflexivity).
    apply raw_score_antitone.
    + unfold mean. rewrite <- Hlen. unfold Qdiv. apply Qmult_le_compat_r.
      * rewrite <- Zle_Qle. apply Zsum_pointwise, Hpt.
      * apply Qinv_le_0_compat. change 0 with (inject_Z 0). rewrite <- Zle_Qle. lia.
    + rewrite <- Zle_Qle. apply Zmax0_pointwise, Hpt.
Qed.

Lemma more_incidents_never_raise_score_witness :
  calculateRouteSafetyScore (thefts 1 ++ unlocated :: thefts 1) [(2, 2)]
  <= calculateRouteSafetyScore (thefts 1 ++ thefts 1) [(2, 2)].
Proof.
  apply (more_incidents_never_raise_score (thefts 1) (thefts 1) unlocated [(2, 2)]).
  discriminate.
Defined.

Lemma filter_from_insert {A : Type} (q : nat -> bool) (l : list A) (i j : nat) (p : A) :
  q (j + i)%nat = false ->
  JSArray.filter_from (fun _ n => q n) j (<[i:=p]> l)
  = JSArray.filter_from (fun _ n => q n) j l.
Proof.
  revert i j. induction l as [|x l IH]; intros i j Hq; [reflexivity|].
  destruct i as [|i]; simpl.
  - rewrite Nat.add_0_r in Hq. rewrite Hq. reflexivity.
  - rewrite (IH i (S j)) by (rewrite <- Hq; f_equal; lia). reflexivity.
Qed.

(** X9.  A point whose index is not a multiple of 5 is never looked at:
    replacing it by any other point changes neither the score of the route
    nor its risk segments. *)
Theorem unsampled_points_ignored crimeData (coordinates : list coord) (i : nat) (p : coord) :
  (i mod 5 <> 0)%nat ->
  calculateRouteSafetyScore crimeData (<[i:=p]> coordinates)
  = calculateRouteSafetyScore crimeData coordinates
  /\ identifyHighRiskAreas crimeData (<[i:=p]> coordinates)
     = identifyHighRiskAreas crimeData coordinates.
Proof.
  intros Hi. split.
  - unfold calculateRouteSafetyScore, samplePoints, JSArray.filter.
    rewrite length_insert, (filter_from_insert (fun n => (n mod 5 =? 0)%nat)); [reflexivity|].
    apply Nat.eqb_neq. exact Hi.
  - rewrite !locator_scans_stride. unfold at_stride, stride_indices.
    rewrite <- !(filter_indices (fun n => (n mod 10 =? 0)%nat)). unfold JSArray.filter.
    rewrite (filter_from_insert (fun n => (n mod 10 =? 0)%nat)); [reflexivity|].
    apply Nat.eqb_neq. cbn [Nat.add]. intros E. apply Hi.
    pose proof (Nat.div_mod_eq i 10). pose proof (Nat.div_mod_eq i 5).
    pose proof (Nat.mod_upper_bound i 5). lia.
Qed.

Lemma unsampled_points_ignored_witness :
  calculateRouteSafetyScore three_assaults (<[1%nat:=(1, 1)]> [(0, 0); (0, 0); (0, 0)])
  = calculateRouteSafetyScore three_assaults [(0, 0); (0, 0); (0, 0)]
  /\ identifyHighRiskAreas three_assaults (<[1%nat:=(1, 1)]> [(0, 0); (0, 0); (0, 0)])
     = identifyHighRiskAreas three_assaults [(0, 0); (0, 0); (0, 0)].
Proof. apply unsampled_points_ignored. discriminate. Defined.

Lemma length_filter_from {A : Type} (q : nat -> bool) (l : list A) (j : nat) :
  length (JSArray.filter_from (fun _ n => q n) j l)
  = length (List.filter q (seq j (length l))).
Proof.
  revert j. induction l as [|x l IH]; intros j; [reflexivity|].
  simpl. destruct (q j); simpl; rewrite IH; reflexivity.
Qed.

Lemma div_step (k n : nat) : k <> 0%nat ->
  ((S n + (k - 1)) / k = (n + (k - 1)) / k + (if n mod k =? 0 then 1 else 0))%nat.
Proof.
  intros Hk.
  pose proof (Nat.div_mod_eq n k) as Hn.
  pose proof (Nat.mod_upper_bound n k Hk) as Hb.
  destruct (n mod k =? 0)%nat eqn:E;
    [apply Nat.eqb_eq in E | apply Nat.eqb_neq in E].
  - rewrite E, Nat.add_0_r in Hn.
    replace (S n + (k - 1))%nat with (0 + (S (n / k)) * k)%nat by lia.
    replace (n + (k - 1))%nat with (k - 1 + (n / k) * k)%nat by lia.
    rewrite !Nat.div_add by exact Hk. rewrite (Nat.div_small (k - 1)) by lia.
    rewrite (Nat.div_small 0%nat) by lia. lia.
  - replace (S n + (k - 1))%nat with (n mod k + (S (n / k)) * k)%nat by lia.
    replace (n + (k - 1))%nat with ((n mod k - 1) + (S (n / k)) * k)%nat by lia.
    rewrite !Nat.div_add by exact Hk.
    rewrite (Nat.div_small (n mod k)), (Nat.div_small (n mod k - 1)%nat) by lia. lia.
Qed.
Lemma count_multiples (k n : nat) : k <> 0%nat ->
  length (List.filter (fun i => (i mod k =? 0)%nat) (seq 0 n)) = ((n + (k - 1)) / k)%nat.
Proof.
  intros Hk. induction n as [|n IH].
  - simpl. symmetry. apply Nat.div_small. lia.
  - rewrite seq_S, List.filter_app, length_app, IH, (div_step k n Hk).
    cbn [List.filter Nat.add]. destruct (n mod k =? 0)%nat; reflexivity.
Qed.

Lemma length_omap_le {A B : Type} (f : A -> option B) (l : list A) :
  (length (omap f l) <= length l)%nat.
Proof.
  induction l as [|x l IH]; [reflexivity|].
  cbn [omap list_omap]. fold (omap f l). destruct (f x); simpl; lia.
Qed.

(** X10.  Of a polyline of n points the scorer samples the n/5 points,
    rounded up, at the multiples of 5, and the locator emits at most n/10
    segments, rounded up: one for every tenth point at most. *)
Theorem sample_counts crimeData (coordinates : list coord) :
  length (samplePoints coordinates) = ((length coordinates + 4) / 5)%nat
  /\ (length (identifyHighRiskAreas crimeData coordinates)
      <= (length coordinates + 9) / 10)%nat.
Proof.
  split.
  - unfold samplePoints, JSArray.filter.
    rewrite (length_filter_from (fun n => (n mod 5 =? 0)%nat)).
    apply (count_multiples 5). discriminate.
  - rewrite locator_scans_stride. unfold at_stride, stride_indices.
    rewrite <- (filter_indices (fun n => (n mod 10 =? 0)%nat)). unfold JSArray.filter.
    etransitivity; [apply length_omap_le|].
    rewrite (length_filter_from (fun n => (n mod 10 =? 0)%nat)).
    rewrite (count_multiples 10) by discriminate. reflexivity.
Qed.

End ScoringFacts.

(** ** What the selection hands over, and how it is shown *)

Module DisplayFacts.
Import JS Density Scorer Risk Selector Display Spec Reference Samples.
Import SelectorFacts.

(** The selection of a response with alternatives, from its two picks. *)
Lemma calculateRoute_shape crimeData (routesData : list RouteData) (sel : selection) :
  calculateRoute crimeData routesData = Some sel ->
  exists (f s : nat) (rf rs : RouteData),
    routesData !! f = Some rf /\ routesData !! s = Some rs
    /\ (forall route, In route routesData -> duration rf <= duration route)
    /\ (forall j route, routesData !! j = Some route ->
          (safetyScore (process crimeData route j)
           <= safetyScore (process crimeData rs s))%Z)
    /\ sel = (let F := process crimeData rf f in
              let S := process crimeData rs s in
              if same_route F S
              then {| finalRoutes := [labelled "fastest_safest" "⚡ Fastest & 🛡️ Safest" 0 F];
                      defaultRoute := labelled "fastest_safest" "⚡ Fastest & 🛡️ Safest" 0 F |}
              else {| finalRoutes := [labelled "fastest" "⚡ Fastest Route" 0 F;
                                      labelled "safest" "🛡️ Safest Route" 1 S];
                      defaultRoute := labelled "safest" "🛡️ Safest Route" 1 S |}).
Proof.
  intros Hsel.
  assert (Hne : routesData <> []) by (intros ->; discriminate Hsel).
  destruct (picks crimeData routesData Hne)
    as (f & s & F & S & HF & HS & Hf & Hs & Hfast & Hsafe).
  pose proof (select_result _ f s F S HF HS Hf Hs) as H1.
  unfold calculateRoute in Hsel. destruct routesData as [|r0 rest]; [congruence|].
  cbn [length Nat.eqb] in Hsel. rewrite Hsel in H1. injection H1 as ->.
  set (routesData := r0 :: rest) in *.
  unfold processedRoutes in HF, HS. rewrite list_lookup_imap in HF, HS.
  destruct (routesData !! f) as [rf|] eqn:Ef; [|discriminate]. injection HF as <-.
  destruct (routesData !! s) as [rs|] eqn:Es; [|discriminate]. injection HS as <-.
  exists f, s, rf, rs. split; [exact Ef|]. split; [exact Es|].
  split; [|split; [|reflexivity]].
  - destruct Hfast as (kf & Hkf & Hle & _).
    rewrite list_lookup_fmap, Ef in Hkf. injection Hkf as <-.
    intros route Hin. apply list_elem_of_In, list_elem_of_lookup_1 in Hin as [j Hj].
    apply (Hle j). rewrite list_lookup_fmap, Hj. reflexivity.
  - destruct Hsafe as (ks & Hks & Hle & _).
    unfold processedRoutes in Hks, Hle.
    rewrite list_lookup_fmap, list_lookup_imap, Es in Hks. injection Hks as <-.
    intros j route Hj. rewrite Zle_Qle. apply (Hle j).
    rewrite list_lookup_fmap, list_lookup_imap, Hj. reflexivity.
Qed.

Lemma same_route_false (a b : Route) :
  same_route a b = false ->
  ~ distance_meters a == distance_meters b \/ ~ duration_seconds a == duration_seconds b.
Proof.
  unfold same_route, JS.eqb. intros H. apply andb_false_iff in H as [H | H].
  - left. intros E. apply Qeq_bool_iff in E. congruence.
  - right. intros E. apply Qeq_bool_iff in E. congruence.
Qed.

(** X11.  The selector hands over one route or two, never none and never
    more.  The first has the least duration of all candidates.  When there
    are two, they carry the roles fastest and safest in that order, they
    differ in distance or in duration, and the safest carries the greatest
    [safetyScore] of all candidates: it is never faster, and never scored
    lower, than the fastest. *)
Theorem fastest_and_safest_are_ordered crimeData (routesData : list RouteData)
    (sel : selection) :
  calculateRoute crimeData routesData = Some sel ->
  match finalRoutes sel with
  | [a] =>
      type a = "fastest_safest"
      /\ (forall route, In route routesData -> duration_seconds a <= duration route)
  | [a; b] =>
      type a = "fastest" /\ type b = "safest"
      /\ (forall route, In route routesData -> duration_seconds a <= duration route)
      /\ (forall j route, routesData !! j = Some route ->
            (safetyScore (process crimeData route j) <= safetyScore b)%Z)
      /\ duration_seconds a <= duration_seconds b
      /\ (safetyScore a <= safetyScore b)%Z
      /\ (~ distance_meters a == distance_meters b
          \/ ~ duration_seconds a == duration_seconds b)
  | _ => False
  end.
Proof.
  intros Hsel.
  destruct (calculateRoute_shape _ _ _ Hsel)
    as (f & s & rf & rs & Hf & Hs & Hfast & Hsafe & ->).
  cbv zeta. destruct (same_route _ _) eqn:E; cbn [finalRoutes].
  - split; [reflexivity | exact Hfast].
  - split; [reflexivity|]. split; [reflexivity|]. split; [exact Hfast|].
    split; [exact Hsafe|]. split; [|split].
    + apply Hfast, list_elem_of_In. eapply list_elem_of_lookup_2. exact Hs.
    + apply (Hsafe f rf Hf).
    + exact (same_route_false _ _ E).
Qed.

Lemma fastest_and_safest_are_ordered_witness :
  let a := labelled "fastest" "⚡ Fastest Route" 0 (process one_fraud route_A 1) in
  let b := labelled "safest" "🛡️ Safest Route" 1 (process one_fraud route_B 0) in
  calculateRoute one_fraud [route_B; route_A; route_B]
  = Some {| finalRoutes := [a; b]; defaultRoute := b |}
  /\ duration_seconds a <= duration_seconds b
  /\ (safetyScore a <= safetyScore b)%Z.
Proof.
  intros a b.
  assert (Hsel : calculateRoute one_fraud [route_B; route_A; route_B]
                 = Some {| finalRoutes := [a; b]; defaultRoute := b |})
    by (vm_compute; reflexivity).
  pose proof (fastest_and_safest_are_ordered _ _ _ Hsel) as H.
  cbn [finalRoutes] in H. destruct H as (_ & _ & _ & _ & H5 & H6 & _).
  split; [exact Hsel | split; [exact H5 | exact H6]].
Defined.

(** X12.  After a route calculation the selected card is the route on
    the map: the selected index points at the default route in the list of
    routes, the index that a route carries is its place in the list, and a
    click on the selected card changes nothing.  The default route is
    drawn green when two routes are handed over and blue when they are
    merged; no route handed over is drawn in the gray of an unknown role. *)
Theorem selected_card_is_displayed crimeData (routesData : list RouteData)
    (sel : selection) :
  calculateRoute crimeData routesData = Some sel ->
  let v := show_selection sel in
  routes v !! selectedRouteIndex v = displayed v
  /\ (forall i r, routes v !! i = Some r -> index r = i)
  /\ selectRoute (selectedRouteIndex v) v = v
  /\ Forall (fun r => getRouteColor (type r) <> "#6b7280") (routes v)
  /\ getRouteColor (type (defaultRoute sel))
     = match routes v with
       | [_] => "#3b82f6"
       | _ => "#10b981"
       end.
Proof.
  intros Hsel v.
  destruct (calculateRoute_shape _ _ _ Hsel) as (f & s & rf & rs & _ & _ & _ & _ & ->).
  unfold v, show_selection, selectRoute. cbv zeta.
  destruct (same_route _ _); cbn -[labelled process].
  - split; [reflexivity|]. split.
    + intros [|[|i]] r Hr; simpl in Hr; [injection Hr as <-; reflexivity | discriminate..].
    + split; [reflexivity|]. split; [|reflexivity].
      constructor; [discriminate | constructor].
  - split; [reflexivity|]. split.
    + intros [|[|[|i]]] r Hr; simpl in Hr;
        [injection Hr as <-; reflexivity | injection Hr as <-; reflexivity | discriminate..].
    + split; [reflexivity|]. split; [|reflexivity].
      constructor; [discriminate | constructor; [discriminate | constructor]].
Qed.

Lemma selected_card_is_displayed_witness :
  let b := labelled "safest" "🛡️ Safest Route" 1 (process one_fraud route_B 0) in
  let a := labelled "fastest" "⚡ Fastest Route" 0 (process one_fraud route_A 1) in
  let v := show_selection {| finalRoutes := [a; b]; defaultRoute := b |} in
  routes v !! selectedRouteIndex v = displayed v
  /\ getRouteColor (type b) = "#10b981".
Proof.
  intros b a v.
  assert (Hsel : calculateRoute one_fraud [route_B; route_A; route_B]
                 = Some {| finalRoutes := [a; b]; defaultRoute := b |})
    by (vm_compute; reflexivity).
  destruct (selected_card_is_displayed _ _ _ Hsel) as (H1 & _ & _ & _ & H5).
  split; [exact H1 | exact H5].
Defined.

End DisplayFacts.

(** ** Saved routes *)

Module HistoryFacts.
Import History Samples.

Lemma not_empty (s : string) : s <> "" -> is_empty s = false.
Proof. destruct s; [congruence | reflexivity]. Qed.

(** X13.  Saving a trip puts it first in the history and keeps the nine
    most recent of the routes saved before, in their order: the history
    never holds more than ten routes after a save.  Loading the route just
    saved gives back the trip. *)
Theorem saved_history_bounded (now : Z) (st : state) :
  startLocation st <> "" -> endLocation st <> "" ->
  let st' := saveRoute now st in
  (exists newRoute,
     savedRoutes st' = newRoute :: take 9 (savedRoutes st)
     /\ timestamp newRoute = now
     /\ startLocation (loadRoute newRoute st') = startLocation st
     /\ endLocation (loadRoute newRoute st') = endLocation st
     /\ transportMode (loadRoute newRoute st') = transportMode st)
  /\ length (savedRoutes st') = S (Nat.min 9 (length (savedRoutes st)))
  /\ (length (savedRoutes st') <= 10)%nat.
Proof.
  intros Hs He st'. unfold st', saveRoute.
  rewrite (not_empty _ Hs), (not_empty _ He). cbn [orb savedRoutes].
  split; [eexists; repeat split; reflexivity|].
  cbn [length]. rewrite length_take. split; lia.
Qed.

Lemma saved_history_bounded_witness :
  (length (savedRoutes (saveRoute 30 trip)) <= 10)%nat
  /\ length (savedRoutes (saveRoute 30 trip)) = 3%nat.
Proof.
  destruct (saved_history_bounded 30 trip) as (_ & H2 & H3); [discriminate | discriminate |].
  split; [exact H3 | exact H2].
Defined.

(** A save with an empty start or end does nothing. *)
Lemma save_without_trip (now : Z) (st : state) :
  startLocation st = "" \/ endLocation st = "" -> saveRoute now st = st.
Proof.
  intros [E | E]; unfold saveRoute; rewrite E; simpl; [reflexivity|].
  destruct (is_empty (startLocation st)); reflexivity.
Qed.




End HistoryFacts.

(** ** Polyline decoding *)

Module PolylineFacts.
Import Polyline PolylineFormat Samples.

Lemma ToInt32_small (x : Z) : (- 2 ^ 31 <= x < 2 ^ 31)%Z -> ToInt32 x = x.
Proof. intros H. unfold ToInt32. rewrite Z.mod_small by lia. lia. Qed.

Lemma charCode_chr (v : Z) : (0 <= v + 63 < 256)%Z -> charCode (chr v) = (v + 63)%Z.
Proof.
  intros H. unfold charCode, chr. rewrite nat_ascii_embedding by lia. lia.
Qed.

Lemma lor_disjoint (a b s : Z) :
  (0 <= s)%Z -> (0 <= a < 2 ^ s)%Z -> Z.lor a (b * 2 ^ s) = (a + b * 2 ^ s)%Z.
Proof.
  intros Hs Ha.
  assert (E : Z.land a (b * 2 ^ s) = 0%Z).
  { apply Z.bits_inj'. intros n Hn. rewrite Z.land_spec, Z.bits_0.
    destruct (Z.lt_ge_cases n s) as [Hlt | Hge].
    - rewrite Z.mul_pow2_bits_low by lia. apply andb_false_r.
    - destruct (Z.eq_dec a 0%Z) as [-> | Hne]; [rewrite Z.bits_0; reflexivity|].
      rewrite (Z.bits_above_log2 a n); [reflexivity | lia |].
      apply Z.log2_lt_pow2; [lia|]. 
      apply Z.lt_le_trans with (2 ^ s)%Z; [lia|]. apply Z.pow_le_mono_r; lia. }
  rewrite <- Z.lxor_lor by exact E. symmetry. apply Z.add_nocarry_lxor. exact E.
Qed.

Lemma and32_31 (b : Z) : (0 <= b < 2 ^ 31)%Z -> and32 b 31 = (b mod 32)%Z.
Proof.
  intros H. unfold and32. rewrite (ToInt32_small b), (ToInt32_small 31) by lia.
  change 31%Z with (Z.ones 5). rewrite Z.land_ones by lia. change (2 ^ 5)%Z with 32%Z.
  apply ToInt32_small. pose proof (Z.mod_pos_bound b 32). lia.
Qed.

Lemma shl32_small (m s : Z) :
  (0 <= s < 32)%Z -> (0 <= m)%Z -> (m * 2 ^ s < 2 ^ 31)%Z -> shl32 m s = (m * 2 ^ s)%Z.
Proof.
  intros Hs Hm H. unfold shl32.
  assert (m < 2 ^ 31)%Z.
  { assert (1 <= 2 ^ s)%Z by (apply Z.pow_le_mono_r with (b := 0%Z) (c := s) (a := 2%Z); lia). nia. }
  rewrite (ToInt32_small m) by lia. rewrite Z.mod_small by lia.
  rewrite Z.shiftl_mul_pow2 by lia. apply ToInt32_small. nia.
Qed.

Lemma or32_disjoint (acc m s : Z) :
  (0 <= s)%Z -> (0 <= acc < 2 ^ s)%Z -> (0 <= m)%Z -> (acc + m * 2 ^ s < 2 ^ 31)%Z ->
  or32 acc (m * 2 ^ s) = (acc + m * 2 ^ s)%Z.
Proof.
  intros Hs Ha Hm H. unfold or32.
  assert (0 <= m * 2 ^ s)%Z by (apply Z.mul_nonneg_nonneg; lia).
  rewrite (ToInt32_small acc), (ToInt32_small (m * 2 ^ s)) by lia.
  rewrite lor_disjoint by lia. apply ToInt32_small. lia.
Qed.

Lemma encode_chunks_S (fuel : nat) (v : Z) :
  encode_chunks (S fuel) v
  = if (v <? 32)%Z then String (chr v) EmptyString
    else String (chr (v mod 32 + 32)) (encode_chunks fuel (v / 32)).
Proof. reflexivity. Qed.

(** Reading back the groups of a value. *)
Lemma read_chunks (fuel : nat) (v shift acc : Z) (rest : string) :
  (0 <= v < 32 ^ Z.of_nat (S fuel))%Z ->
  (0 <= shift < 32)%Z ->
  (0 <= acc < 2 ^ shift)%Z ->
  (acc + v * 2 ^ shift < 2 ^ 31)%Z ->
  read (encode_chunks (S fuel) v ++ rest) shift acc = ((acc + v * 2 ^ shift)%Z, rest).
Proof.
  revert v shift acc. induction fuel as [|fuel IH]; intros v shift acc Hv Hs Ha H.
  - change (32 ^ Z.of_nat 1)%Z with 32%Z in Hv.
    cbn [encode_chunks]. destruct (v <? 32)%Z eqn:E; [|apply Z.ltb_ge in E; lia].
    cbn [String.append read]. rewrite charCode_chr by lia.
    replace (v + 63 - 63)%Z with v by lia.
    rewrite and32_31 by lia. rewrite Z.mod_small by lia.
    rewrite shl32_small by lia. rewrite or32_disjoint by lia.
    destruct (32 <=? v)%Z eqn:E'; [apply Z.leb_le in E'; lia | reflexivity].
  - rewrite (encode_chunks_S (S fuel) v). destruct (v <? 32)%Z eqn:E.
    + apply Z.ltb_lt in E.
      cbn [String.append read]. rewrite charCode_chr by lia.
      replace (v + 63 - 63)%Z with v by lia.
      rewrite and32_31 by lia. rewrite Z.mod_small by lia.
      rewrite shl32_small by lia. rewrite or32_disjoint by lia.
      destruct (32 <=? v)%Z eqn:E'; [apply Z.leb_le in E'; lia | reflexivity].
    + apply Z.ltb_ge in E.
      pose proof (Z.mod_pos_bound v 32 ltac:(lia)) as Hm.
      pose proof (Z.div_mod v 32 ltac:(lia)) as Hd.
      assert (Hq : (1 <= v / 32)%Z) by (apply Z.div_le_lower_bound; lia).
      assert (Hp : (0 < 2 ^ shift)%Z) by (apply Z.pow_pos_nonneg; lia).
      assert (Hs5 : (2 ^ (shift + 5) = 32 * 2 ^ shift)%Z)
        by (rewrite Z.pow_add_r by lia; change (2 ^ 5)%Z with 32%Z; lia).
      assert (Hsmall : (shift + 5 < 32)%Z).
      { destruct (Z.lt_ge_cases (shift + 5) 31) as [Hlt | Hge]; [lia|].
        assert (2 ^ 31 <= 2 ^ (shift + 5))%Z by (apply Z.pow_le_mono_r; lia). nia. }
      cbn [String.append read]. rewrite charCode_chr by lia.
      replace (v mod 32 + 32 + 63 - 63)%Z with (v mod 32 + 32)%Z by lia.
      rewrite and32_31 by lia.
      replace ((v mod 32 + 32) mod 32)%Z with (v mod 32)%Z
        by (rewrite <- (Z.mul_1_l 32) at 3; rewrite Z.mod_add by lia;
            symmetry; apply Z.mod_small; lia).
      rewrite shl32_small by nia. rewrite or32_disjoint by nia.
      destruct (32 <=? v mod 32 + 32)%Z eqn:E'; [|apply Z.leb_gt in E'; lia].
      rewrite IH.
      * f_equal. rewrite Hs5. nia.
      * split; [lia|]. apply Z.div_lt_upper_bound; [lia|].
        replace (32 * 32 ^ Z.of_nat (S fuel))%Z with (32 ^ Z.of_nat (S (S fuel)))%Z; [lia|].
        rewrite (Nat2Z.inj_succ (S fuel)), Z.pow_succ_r by lia. reflexivity.
      * lia.
      * rewrite Hs5. nia.
      * rewrite Hs5. nia.
Qed.

Lemma zigzag_bounds (d : Z) : in_range d -> (0 <= zigzag d < 2 ^ 31)%Z.
Proof. unfold in_range, zigzag. intros H. destruct (d <? 0)%Z eqn:E; [apply Z.ltb_lt in E | apply Z.ltb_ge in E]; lia. Qed.

Lemma delta_zigzag (d : Z) : in_range d -> delta (zigzag d) = d.
Proof.
  intros H. pose proof (zigzag_bounds d H) as Hz. unfold delta, and32, sar32, not32.
  rewrite (ToInt32_small (zigzag d)), (ToInt32_small 1) by lia.
  change 1%Z with (Z.ones 1) at 1. rewrite Z.land_ones by lia.
  change (2 ^ 1)%Z with 2%Z. change (1 mod 32)%Z with 1%Z.
  rewrite Z.shiftr_div_pow2 by lia. change (2 ^ 1)%Z with 2%Z.
  assert (Hm : (0 <= zigzag d mod 2 < 2)%Z) by (apply Z.mod_pos_bound; lia).
  rewrite (ToInt32_small (zigzag d mod 2)) by lia.
  unfold zigzag in *. destruct (d <? 0)%Z eqn:E; [apply Z.ltb_lt in E | apply Z.ltb_ge in E].
  - replace (-2 * d - 1)%Z with (1 + (- d - 1) * 2)%Z by lia.
    rewrite Z.mod_add, Z.div_add by lia. change (1 mod 2)%Z with 1%Z. change (1 / 2)%Z with 0%Z.
    cbn [Z.eqb negb]. rewrite ToInt32_small by lia. unfold Z.lnot. lia.
  - replace (2 * d)%Z with (0 + d * 2)%Z by lia.
    rewrite Z.mod_add, Z.div_add by lia. change (0 mod 2)%Z with 0%Z. change (0 / 2)%Z with 0%Z.
    cbn [Z.eqb negb]. lia.
Qed.

Lemma read_signed (d : Z) (rest : string) :
  in_range d -> read (encode_signed d ++ rest) 0 0 = (zigzag d, rest).
Proof.
  intros H. pose proof (zigzag_bounds d H) as Hz. unfold encode_signed.
  rewrite read_chunks; [f_equal; lia | | lia | simpl; lia | lia].
  split; [lia|]. apply Z.lt_trans with (2 ^ 31)%Z; [lia | reflexivity].
Qed.

Lemma encode_signed_cons (d : Z) : exists c s, encode_signed d = String c s.
Proof.
  unfold encode_signed. rewrite encode_chunks_S. destruct (zigzag d <? 32)%Z; eauto.
Qed.

Lemma decode_step (fuel : nat) (rest : string) (lat lng : Z) :
  rest <> EmptyString ->
  decode_from (S fuel) rest lat lng
  = (let '(result, rest1) := read rest 0 0 in
     let lat := (lat + delta result)%Z in
     let '(result, rest2) := read rest1 0 0 in
     let lng := (lng + delta result)%Z in
     (inject_Z lat / 100000, inject_Z lng / 100000) :: decode_from fuel rest2 lat lng).
Proof. destruct rest; [congruence | reflexivity]. Qed.

Lemma decode_encoded (points : list (Z * Z)) (lat lng : Z) (fuel : nat) :
  (length points <= fuel)%nat ->
  smooth lat lng points ->
  decode_from fuel (encode_from lat lng points) lat lng
  = map (fun p : Z * Z => (inject_Z (fst p) / 100000, inject_Z (snd p) / 100000)) points.
Proof.
  revert lat lng fuel. induction points as [|[a b] points IH]; intros lat lng fuel Hf Hs.
  - destruct fuel; reflexivity.
  - destruct fuel as [|fuel]; [simpl in Hf; lia|].
    destruct Hs as (Ha & Hb & Hs).
    cbn [encode_from]. rewrite decode_step.
    + rewrite (read_signed _ _ Ha), (read_signed _ _ Hb), !delta_zigzag by assumption.
      replace (lat + (a - lat))%Z with a by lia. replace (lng + (b - lng))%Z with b by lia.
      cbn [map fst snd]. f_equal. apply IH; [simpl in Hf; lia | exact Hs].
    + destruct (encode_signed_cons (a - lat)) as (c & s & ->). discriminate.
Qed.

Lemma length_append (s1 s2 : string) :
  String.length (s1 ++ s2) = (String.length s1 + String.length s2)%nat.
Proof. induction s1 as [|c s1 IH]; simpl; [reflexivity | rewrite IH; reflexivity]. Qed.

Lemma encode_length (points : list (Z * Z)) (lat lng : Z) :
  (length points <= String.length (encode_from lat lng points))%nat.
Proof.
  revert lat lng. induction points as [|[a b] points IH]; intros lat lng; simpl; [lia|].
  rewrite !length_append. specialize (IH a b).
  destruct (encode_signed_cons (a - lat)) as (c & s & ->). simpl. lia.
Qed.

Lemma read_rest (s : string) (shift acc : Z) :
  (String.length (snd (read s shift acc)) <= Nat.pred (String.length s))%nat.
Proof.
  revert shift acc. induction s as [|c s IH]; intros shift acc; [simpl; lia|].
  cbn [read]. destruct (32 <=? charCode c - 63)%Z; [|simpl; lia].
  specialize (IH (shift + 5)%Z (or32 acc (shl32 (and32 (charCode c - 63) 31) shift))).
  simpl in *. lia.
Qed.

Lemma decode_fuel (fuel1 fuel2 : nat) (s : string) (lat lng : Z) :
  (String.length s <= fuel1)%nat -> (String.length s <= fuel2)%nat ->
  decode_from fuel1 s lat lng = decode_from fuel2 s lat lng.
Proof.
  revert fuel2 s lat lng. induction fuel1 as [|fuel1 IH]; intros fuel2 s lat lng H1 H2.
  - destruct s; [|simpl in H1; lia]. destruct fuel2; reflexivity.
  - destruct s as [|c s]; [destruct fuel2; reflexivity|].
    destruct fuel2 as [|fuel2]; [simpl in H2; lia|].
    rewrite !decode_step by discriminate.
    pose proof (read_rest (String c s) 0 0) as Hr1.
    destruct (read (String c s) 0 0) as [r1 s1].
    pose proof (read_rest s1 0 0) as Hr2.
    destruct (read s1 0 0) as [r2 s2]. cbv zeta.
    f_equal. simpl in *. apply IH; lia.
Qed.

Lemma decode_length (fuel : nat) (s : string) (lat lng : Z) :
  (2 * length (decode_from fuel s lat lng) <= String.length s + 1)%nat.
Proof.
  revert s lat lng. induction fuel as [|fuel IH]; intros s lat lng; [simpl; lia|].
  destruct s as [|c s]; [simpl; lia|].
  rewrite decode_step by discriminate.
  pose proof (read_rest (String c s) 0 0) as Hr1.
  destruct (read (String c s) 0 0) as [r1 s1].
  pose proof (read_rest s1 0 0) as Hr2.
  destruct (read s1 0 0) as [r2 s2]. cbv zeta. cbn [length].
  specialize (IH s2 (lat + delta r1)%Z (lng + delta r2)%Z).
  destruct s1 as [|c1 s1].
  - simpl in Hr2. destruct s2; [|simpl in Hr2; lia].
    destruct fuel; simpl in *; lia.
  - simpl in *. lia.
Qed.

(** X15.  The decoder comes to an end on every string, also on one that
    breaks off in the middle of a value: as many turns of its loop as the
    string has characters are enough, more turns change nothing, and it
    yields at most one point for every two characters, rounded up. *)
Theorem decoder_ends (encoded : string) (fuel : nat) :
  (String.length encoded <= fuel)%nat ->
  decode_from fuel encoded 0 0 = decodePolyline encoded
  /\ (2 * length (decodePolyline encoded) <= String.length encoded + 1)%nat.
Proof.
  intros H. split; [|apply decode_length].
  unfold decodePolyline. apply decode_fuel; [exact H | reflexivity].
Qed.

Lemma decoder_ends_witness :
  decode_from 100 "_p~iF~ps|U_ulLnnq" 0 0 = decodePolyline "_p~iF~ps|U_ulLnnq"
  /\ (2 * length (decodePolyline "_p~iF~ps|U_ulLnnq") <= 17 + 1)%nat.
Proof. apply (decoder_ends "_p~iF~ps|U_ulLnnq" 100). simpl. lia. Defined.

(** X16.  The decoder undoes the encoding: a list of points in units of
    1e-5 degrees, each within 2^30 units of the one before it and the
    first within 2^30 units of (0, 0), is decoded from its encoding point
    for point, every coordinate divided by 100000. *)
Theorem decode_inverts_encode (points : list (Z * Z)) :
  smooth 0 0 points ->
  decodePolyline (encodePolyline points)
  = map (fun p : Z * Z => (inject_Z (fst p) / 100000, inject_Z (snd p) / 100000)) points.
Proof.
  intros H. unfold decodePolyline, encodePolyline.
  apply decode_encoded; [apply encode_length | exact H].
Qed.


Lemma decode_inverts_encode_witness :
  encodePolyline documented_points = "_p~iF~ps|U_ulLnnqC_mqNvxq`@"
  /\ decodePolyline (encodePolyline documented_points)
     = [(3850000 / 100000, -12020000 / 100000);
        (4070000 / 100000, -12095000 / 100000);
        (4325200 / 100000, -12645300 / 100000)].
Proof.
  split; [reflexivity|].
  apply (decode_inverts_encode documented_points).
  unfold documented_points, smooth, in_range. lia.
Defined.

End PolylineFacts.

(** ** The routing endpoint of the application *)

Module RouteApiFacts.
Import RouteApi Client Samples Places.

Section Handler.
Context {D : Type}.
Variable get : string -> upstream D.

Lemma endpoint_modes (mode : string) :
  (exists endpoint, getRoutingEndpoint mode = Some endpoint)
  <-> mode = "walking" \/ mode = "cycling" \/ mode = "driving".
Proof.
  unfold getRoutingEndpoint. split.
  - intros [endpoint H].
    destruct (String.eqb mode "walking") eqn:E1; [apply String.eqb_eq in E1; tauto|].
    destruct (String.eqb mode "cycling") eqn:E2; [apply String.eqb_eq in E2; tauto|].
    destruct (String.eqb mode "driving") eqn:E3; [apply String.eqb_eq in E3; tauto|].
    discriminate.
  - intros [-> | [-> | ->]]; simpl; eauto.
Qed.

Lemma truthy_Some (x : option string) :
  truthy x = true -> exists c s, x = Some (String c s).
Proof. destruct x as [[|c s]|]; simpl; intros H; try discriminate; eauto. Qed.


(** X18.  For the body that the component builds from two matches of the
    geocoder and its transport mode, the handler always asks the routing
    server, once, at the endpoint of the mode with the coordinates in the
    order longitude, latitude: such a body is never answered with 400 nor
    with the status 500 of an unknown mode. *)
Theorem component_request_reaches_routing_server (start finish : Location)
    (mode : History.TransportMode) :
  exists endpoint,
    getRoutingEndpoint (mode_name mode) = Some endpoint
    /\ snd (POST get (route_request start finish mode))
       = [(endpoint ++ "/" ++ lon start ++ "," ++ lat start ++ ";"
             ++ lon finish ++ "," ++ lat finish)%string].
Proof.
  assert (Hs : forall a b : string, truthy (Some (a ++ "," ++ b)%string) = true).
  { intros a b. destruct a; reflexivity. }
  assert (Hassoc : forall a b c : string, ((a ++ b) ++ c = a ++ b ++ c)%string).
  { intros a b c. induction a as [|x a IH]; [reflexivity|].
    cbn [String.append]. rewrite IH. reflexivity. }
  assert (Ha : forall a b c d : string,
             ((a ++ "," ++ b) ++ ";" ++ c ++ "," ++ d
              = a ++ "," ++ b ++ ";" ++ c ++ "," ++ d)%string).
  { intros a b c d. rewrite !Hassoc. reflexivity. }
  assert (He : exists endpoint, getRoutingEndpoint (mode_name mode) = Some endpoint)
    by (destruct mode; simpl; eauto).
  destruct He as [endpoint He]. exists endpoint. split; [exact He|].
  unfold POST, route_request. cbn [startCoords endCoords transportMode].
  rewrite !Hs. cbn [negb orb JS.or_empty truthy]. rewrite He.
  destruct mode; cbn [mode_name truthy negb]; destruct (get _); cbn [snd];
    rewrite Ha; reflexivity.
Qed.

End Handler.

End RouteApiFacts.
